(** * ModForge: the slash-command grammar of the automation scripts

    A shallow embedding of the command detection of
    [.github/scripts/process_conversation.py] ([COMMAND_PATTERNS] and
    [detect_commands]) and of
    [modforge-intellij-plugin/.github/scripts/process_comment_command.py]
    ([CommandProcessor._extract_commands], and the step with which the
    handlers take the code block out of a reply).

    Both scripts are driven by Python's [re] module.  The command patterns
    use a small fragment of its syntax: literal text, a greedy one-or-more
    repetition of a character class, ordered alternation, concatenation and
    numbered capturing groups.  That fragment is embedded as a syntax tree
    ([Re.regex]) with the backtracking matcher of the engine ([Re.rmatch]);
    [re.finditer] and [re.search] are built on it.  The code-block pattern
    needs an optional group and a lazy repetition instead; its fragment is
    [CodeBlock.regex].

    Text is modelled as [string], one [ascii] per code point, so the
    development covers the texts whose code points are below 256. *)

From Stdlib Require Import String Ascii List Sorted Bool Arith ZArith NArith Lia.
From Stdlib Require Import DecimalString DecimalN DecimalPos.
Import ListNotations.

Local Open Scope string_scope.
Local Open Scope list_scope.

(** ** Results of code that may raise *)

Inductive exn : Type :=
| IndexError      (* match.group(n) on a pattern with fewer than n groups *)
| ValueError      (* int() on a string it does not convert *)
| AttributeError. (* a string method called on None *)

Inductive result (A : Type) : Type :=
| Ok (a : A)
| Raise (e : exn).

Arguments Ok {A} a.
Arguments Raise {A} e.

Definition bind {A B : Type} (r : result A) (f : A -> result B) : result B :=
  match r with
  | Ok a => f a
  | Raise e => Raise e
  end.

Notation "x <- r ;; k" := (bind r (fun x => k))
  (at level 61, r at next level, right associativity).

(** ** The string methods the scripts call *)

Module Py.

Definition dquote : ascii := ascii_of_nat 34.
Definition comma : ascii := ascii_of_nat 44.

(** Unicode white space, as [str.strip] and the class [\s] see it, for the
    code points below 256: TAB..CR, FS..US, SPACE, NEL and NBSP. *)
Definition isspace (c : ascii) : bool :=
  let n := nat_of_ascii c in
  (((9 <=? n) && (n <=? 13)) || ((28 <=? n) && (n <=? 31)) ||
   (n =? 32) || (n =? 133) || (n =? 160))%nat.

(** The ASCII digits, the class [0-9]. *)
Definition is_ascii_digit (c : ascii) : bool :=
  let n := nat_of_ascii c in ((48 <=? n) && (n <=? 57))%nat.

(** The characters for which [str.isdigit] holds, below 256: the ASCII
    digits and the superscripts two, three and one. *)
Definition isdigit_char (c : ascii) : bool :=
  let n := nat_of_ascii c in
  is_ascii_digit c || ((n =? 178) || (n =? 179) || (n =? 185))%nat.

(** [s.isdigit()]: not empty and every character a digit. *)
Definition isdigit (s : list ascii) : bool :=
  match s with
  | [] => false
  | _ :: _ => forallb isdigit_char s
  end.

Fixpoint lstrip (s : list ascii) : list ascii :=
  match s with
  | c :: s' => if isspace c then lstrip s' else s
  | [] => []
  end.

Definition rstrip (s : list ascii) : list ascii := rev (lstrip (rev s)).

(** [s.strip()] *)
Definition strip (s : list ascii) : list ascii := rstrip (lstrip s).

(** [s.split(sep)] for a one-character separator: never an empty list. *)
Fixpoint split (sep : ascii) (s : list ascii) : list (list ascii) :=
  match s with
  | [] => [[]]
  | c :: s' =>
      if Ascii.eqb c sep then [] :: split sep s'
      else match split sep s' with
           | p :: ps => (c :: p) :: ps
           | [] => [[c]]
           end
  end.

(** The interpreter's default limit on the number of digits of a decimal
    literal that [int] converts ([sys.get_int_max_str_digits()]). *)
Definition int_max_str_digits : nat := 4300.

(** [int(s)] on the strings the comprehension of [detect_commands] hands
    it, which are stripped and pass [isdigit]: a run of ASCII digits is read
    in base ten, leading zeros allowed; any other character (a superscript
    digit) raises [ValueError], and so do the empty string and a run of more
    than [int_max_str_digits] digits, leading zeros counted. *)
Definition int (s : list ascii) : result Z :=
  match s with
  | [] => Raise ValueError
  | _ :: _ =>
      if forallb is_ascii_digit s then
        if (int_max_str_digits <? length s)%nat then Raise ValueError
        else
          match NilEmpty.uint_of_string (string_of_list_ascii s) with
          | Some d => Ok (Z.of_N (N.of_uint d))
          | None => Raise ValueError
          end
      else Raise ValueError
  end.

(** [str(n)] for a non-negative integer. *)
Definition str (n : N) : list ascii :=
  list_ascii_of_string (NilEmpty.string_of_uint (N.to_uint n)).

(** Truth value of [None] or a string. *)
Definition truthy (v : option string) : bool :=
  match v with
  | Some (String _ _) => true
  | _ => false
  end.

End Py.

(** ** The fragment of [re] the patterns are written in *)

Module Re.

Inductive regex : Type :=
| Lit (l : list ascii)               (* literal text *)
| PlusSet (cls : ascii -> bool)      (* [...]+ and \s+, greedy *)
| Cat (r1 r2 : regex)                (* r1 r2 *)
| Alt (r1 r2 : regex)                (* r1|r2, left alternative first *)
| Group (n : nat) (r : regex).       (* (r), the n-th capturing group *)

(** Captured text by group number, latest capture first. *)
Definition caps : Type := list (nat * list ascii).

Fixpoint lookup (n : nat) (g : caps) : option (list ascii) :=
  match g with
  | [] => None
  | (k, v) :: g' => if Nat.eqb k n then Some v else lookup n g'
  end.

Fixpoint ngroups (r : regex) : nat :=
  match r with
  | Lit _ | PlusSet _ => 0
  | Cat r1 r2 | Alt r1 r2 => ngroups r1 + ngroups r2
  | Group _ r1 => S (ngroups r1)
  end.

(** [strip_prefix l s] is the rest of [s] after the literal [l]. *)
Fixpoint strip_prefix (l s : list ascii) : option (list ascii) :=
  match l with
  | [] => Some s
  | a :: l' =>
      match s with
      | c :: s' => if Ascii.eqb a c then strip_prefix l' s' else None
      | [] => None
      end
  end.

Section Matcher.

Variable A : Type.

(** What remains to be matched after a sub-pattern: it receives the
    rest of the text and the captures so far, and fails ([None]) to make
    the sub-pattern backtrack. *)
Definition cont : Type := list ascii -> caps -> option A.

(** Greedy [cls+]: take the longest run first, give characters back one
    at a time while the continuation fails. *)
Fixpoint plus_set (cls : ascii -> bool) (s : list ascii) (g : caps)
         (k : cont) : option A :=
  match s with
  | c :: s' =>
      if cls c then
        match plus_set cls s' g k with
        | Some x => Some x
        | None => k s' g
        end
      else None
  | [] => None
  end.

Fixpoint rmatch (r : regex) (s : list ascii) (g : caps) (k : cont)
  : option A :=
  match r with
  | Lit l =>
      match strip_prefix l s with
      | Some s' => k s' g
      | None => None
      end
  | PlusSet cls => plus_set cls s g k
  | Cat r1 r2 => rmatch r1 s g (fun s' g' => rmatch r2 s' g' k)
  | Alt r1 r2 =>
      match rmatch r1 s g k with
      | Some x => Some x
      | None => rmatch r2 s g k
      end
  | Group n r1 =>
      rmatch r1 s g
        (fun s' g' =>
           k s' ((n, firstn (length s - length s') s) :: g'))
  end.

End Matcher.

Arguments plus_set {A} cls s g k.
Arguments rmatch {A} r s g k.

(** A match anchored at the head of [s]: the captures and the unmatched
    rest. *)
Definition match_at (r : regex) (s : list ascii)
  : option (caps * list ascii) :=
  rmatch r s [] (fun s' g => Some (g, s')).

(** The match object: span, matched text, captures, and the number of
    groups of the pattern it came from. *)
Record match_obj : Type := MkMatch {
  m_start : nat;
  m_end : nat;
  m_text : list ascii;
  m_caps : caps;
  m_groups : nat
}.

Definition mk_match (r : regex) (pos : nat) (s : list ascii)
           (found : caps * list ascii) : match_obj :=
  let len := length s - length (snd found) in
  MkMatch pos (pos + len) (firstn len s) (fst found) (ngroups r).

(** [match.group(n)]: [IndexError] beyond the groups of the pattern,
    [None] for a group that took no part in the match. *)
Definition group (m : match_obj) (n : nat) : result (option string) :=
  if (m_groups m <? n)%nat then Raise IndexError
  else match n with
       | 0 => Ok (Some (string_of_list_ascii (m_text m)))
       | S _ => Ok (option_map string_of_list_ascii (lookup n (m_caps m)))
       end.

(** [re.finditer] over the text from offset [pos]: the leftmost match,
    then the scan resumes where it ended.  [skip] counts the characters of
    the last match still to be stepped over.  (After an empty match the
    scan moves on by one character; no pattern of the scripts matches the
    empty string, see [patterns_consume].) *)
Fixpoint finditer_from (r : regex) (pos skip : nat) (s : list ascii)
  : list match_obj :=
  match s with
  | [] =>
      match skip, match_at r [] with
      | 0, Some found => [mk_match r pos [] found]
      | _, _ => []
      end
  | _ :: s' =>
      match skip with
      | S n => finditer_from r (S pos) n s'
      | 0 =>
          match match_at r s with
          | Some found =>
              mk_match r pos s found
                :: finditer_from r (S pos)
                     (length s - length (snd found) - 1) s'
          | None => finditer_from r (S pos) 0 s'
          end
      end
  end.

Definition finditer (r : regex) (text : string) : list match_obj :=
  finditer_from r 0 0 (list_ascii_of_string text).

(** [re.search]: the first match of the scan, if any. *)
Definition search (r : regex) (text : string) : option match_obj :=
  match finditer r text with
  | m :: _ => Some m
  | [] => None
  end.

End Re.

Import Re.

(** ** The patterns *)

Definition lit (s : string) : regex := Lit (list_ascii_of_string s).

(** [\s] *)
Definition cls_space : ascii -> bool := Py.isspace.

(** The class of every character but the double quote. *)
Definition cls_not_quote (c : ascii) : bool := negb (Ascii.eqb c Py.dquote).

(** The class of every character but white space and the double quote. *)
Definition cls_bare (c : ascii) : bool :=
  negb (Py.isspace c) && negb (Ascii.eqb c Py.dquote).

(** [[0-9,\s]] *)
Definition cls_index (c : ascii) : bool :=
  Py.is_ascii_digit c || Ascii.eqb c Py.comma || Py.isspace c.

(** [(?:"([^"]+)"|([^\s"]+))] with groups [i] and [i+1]. *)
Definition arg_pattern (i : nat) : regex :=
  Alt (Cat (Lit [Py.dquote])
           (Cat (Group i (PlusSet cls_not_quote)) (Lit [Py.dquote])))
      (Group (S i) (PlusSet cls_bare)).

(** [/kw\s+(?:"([^"]+)"|([^\s"]+))] *)
Definition target_pattern (kw : string) : regex :=
  Cat (lit kw) (Cat (PlusSet cls_space) (arg_pattern 1)).

(** [/add\s+(?:"([^"]+)"|([^\s"]+))\s+to\s+(?:"([^"]+)"|([^\s"]+))] *)
Definition add_pattern : regex :=
  Cat (lit "/add")
      (Cat (PlusSet cls_space)
           (Cat (arg_pattern 1)
                (Cat (PlusSet cls_space)
                     (Cat (lit "to")
                          (Cat (PlusSet cls_space) (arg_pattern 3)))))).

(** [/implement\s+(?:all|([0-9,\s]+))] *)
Definition implement_pattern : regex :=
  Cat (lit "/implement")
      (Cat (PlusSet cls_space)
           (Alt (lit "all") (Group 1 (PlusSet cls_index)))).

(** [/help] *)
Definition help_pattern : regex := lit "/help".

(** ** [process_conversation.py] *)

(** The argument half of a detected command: a plain value (a string, or
    [None]), the dictionary of [/add], or one of the two dictionaries of
    [/implement]. *)
Inductive cmd_args : Type :=
| Arg (target : option string)
| AddArgs (feature target : option string)   (* {'feature': _, 'target': _} *)
| Indices (indices : list Z)                 (* {'indices': [...]} *)
| All.                                       (* {'all': True} *)

Definition command : Type := (string * cmd_args)%type.

(** The dictionary, in insertion order, which is the order [items()]
    iterates in. *)
Definition COMMAND_PATTERNS : list (string * regex) :=
  [ ("fix", target_pattern "/fix");
    ("improve", target_pattern "/improve");
    ("document", target_pattern "/document");
    ("add", add_pattern);
    ("analyze", target_pattern "/analyze");
    ("explain", target_pattern "/explain");
    ("implement", implement_pattern);
    ("refactor", target_pattern "/refactor");
    ("test", target_pattern "/test");
    ("help", help_pattern) ].

(** [match.group(i) if match.group(i) else match.group(j)] *)
Definition group_or (m : match_obj) (i j : nat) : result (option string) :=
  c <- group m i ;;
  if Py.truthy c then group m i else group m j.

(** [[int(idx.strip()) for idx in text.split(',') if idx.strip().isdigit()]] *)
Fixpoint parse_indices (pieces : list (list ascii)) : result (list Z) :=
  match pieces with
  | [] => Ok []
  | idx :: rest =>
      if Py.isdigit (Py.strip idx) then
        n <- Py.int (Py.strip idx) ;;
        ns <- parse_indices rest ;;
        Ok (n :: ns)
      else parse_indices rest
  end.

(** The body of the inner loop: the command one match appends to
    [commands].  Of the two members of [['add', 'implement']], the [elif]
    takes the one that is not ['add']. *)
Definition match_command (cmd_type : string) (m : match_obj)
  : result command :=
  if existsb (String.eqb cmd_type) ["add"; "implement"] then
    if String.eqb cmd_type "add" then
      target1 <- group_or m 1 2 ;;
      target2 <- group_or m 3 4 ;;
      Ok (cmd_type, AddArgs target1 target2)
    else
      c <- group m 1 ;;
      if Py.truthy c then
        g <- group m 1 ;;
        match g with
        | Some text =>
            indices <- parse_indices
                         (Py.split Py.comma (list_ascii_of_string text)) ;;
            Ok (cmd_type, Indices indices)
        | None => Raise AttributeError
        end
      else Ok (cmd_type, All)
  else
    target <- group_or m 1 2 ;;
    Ok (cmd_type, Arg target).

(** [for match in matches: ...] *)
Fixpoint each_match (cmd_type : string) (matches : list match_obj)
         (commands : list command) : result (list command) :=
  match matches with
  | [] => Ok commands
  | m :: rest =>
      c <- match_command cmd_type m ;;
      each_match cmd_type rest (commands ++ [c])
  end.

(** [for cmd_type, pattern in COMMAND_PATTERNS.items(): ...] *)
Fixpoint each_pattern (patterns : list (string * regex)) (text : string)
         (commands : list command) : result (list command) :=
  match patterns with
  | [] => Ok commands
  | (cmd_type, pattern) :: rest =>
      commands' <- each_match cmd_type (finditer pattern text) commands ;;
      each_pattern rest text commands'
  end.

Definition detect_commands (text : string) : result (list command) :=
  each_pattern COMMAND_PATTERNS text [].

(** ** [process_comment_command.py] *)

Module CommandProcessor.

Definition FIX_PATTERN : regex := target_pattern "/fix".
Definition IMPROVE_PATTERN : regex := target_pattern "/improve".
Definition DOCUMENT_PATTERN : regex := target_pattern "/document".
Definition ADD_PATTERN : regex := add_pattern.
Definition EXPLAIN_PATTERN : regex := target_pattern "/explain".
Definition HELP_PATTERN : regex := help_pattern.

(** The loop of a one-argument command:
    [target = match.group(1) if match.group(1) else match.group(2)]. *)
Fixpoint each_target (cmd_type : string) (matches : list match_obj)
         (commands : list command) : result (list command) :=
  match matches with
  | [] => Ok commands
  | m :: rest =>
      target <- group_or m 1 2 ;;
      each_target cmd_type rest (commands ++ [(cmd_type, Arg target)])
  end.

(** The loop of [/add]. *)
Fixpoint each_add (matches : list match_obj) (commands : list command)
  : result (list command) :=
  match matches with
  | [] => Ok commands
  | m :: rest =>
      feature <- group_or m 1 2 ;;
      target <- group_or m 3 4 ;;
      each_add rest (commands ++ [("add", AddArgs feature target)])
  end.

Definition _extract_commands (comment_body : string)
  : result (list command) :=
  commands <- each_target "fix" (finditer FIX_PATTERN comment_body) [] ;;
  commands <- each_target "improve"
                (finditer IMPROVE_PATTERN comment_body) commands ;;
  commands <- each_target "document"
                (finditer DOCUMENT_PATTERN comment_body) commands ;;
  commands <- each_add (finditer ADD_PATTERN comment_body) commands ;;
  commands <- each_target "explain"
                (finditer EXPLAIN_PATTERN comment_body) commands ;;
  match search HELP_PATTERN comment_body with
  | Some _ => Ok (commands ++ [("help", Arg None)])%list
  | None => Ok commands
  end.

End CommandProcessor.

(** ** The code block of a model reply, in [process_comment_command.py] *)

Module CodeBlock.

(** The fragment of [re] the pattern of the handlers is written in, read
    under [re.DOTALL]. *)
Inductive regex : Type :=
| Lit (l : list ascii)          (* literal text *)
| Opt (r : regex)               (* (?:r)?, greedy: first with [r] *)
| LazyAny                       (* .*? where the dot takes any character *)
| Cat (r1 r2 : regex)           (* r1 r2 *)
| Group (n : nat) (r : regex).  (* (r), the n-th capturing group *)

Fixpoint ngroups (r : regex) : nat :=
  match r with
  | Lit _ | LazyAny => 0
  | Opt r1 => ngroups r1
  | Cat r1 r2 => ngroups r1 + ngroups r2
  | Group _ r1 => S (ngroups r1)
  end.

Section Matcher.

Variable A : Type.

(** Lazy [.*?]: hand over at once, and take one more character each time
    the continuation fails. *)
Fixpoint lazy_any (s : list ascii) (g : caps) (k : cont A) : option A :=
  match k s g with
  | Some x => Some x
  | None =>
      match s with
      | _ :: s' => lazy_any s' g k
      | [] => None
      end
  end.

Fixpoint rmatch (r : regex) (s : list ascii) (g : caps) (k : cont A)
  : option A :=
  match r with
  | Lit l =>
      match strip_prefix l s with
      | Some s' => k s' g
      | None => None
      end
  | Opt r1 =>
      match rmatch r1 s g k with
      | Some x => Some x
      | None => k s g
      end
  | LazyAny => lazy_any s g k
  | Cat r1 r2 => rmatch r1 s g (fun s' g' => rmatch r2 s' g' k)
  | Group n r1 =>
      rmatch r1 s g
        (fun s' g' =>
           k s' ((n, firstn (length s - length s') s) :: g'))
  end.

End Matcher.

Arguments lazy_any {A} s g k.
Arguments rmatch {A} r s g k.

Definition match_at (r : regex) (s : list ascii)
  : option (caps * list ascii) :=
  rmatch r s [] (fun s' g => Some (g, s')).

Definition mk_match (r : regex) (pos : nat) (s : list ascii)
           (found : caps * list ascii) : match_obj :=
  let len := length s - length (snd found) in
  MkMatch pos (pos + len) (firstn len s) (fst found) (ngroups r).

(** [re.search] from offset [pos]: the match at the leftmost position
    that has one. *)
Fixpoint search_from (r : regex) (pos : nat) (s : list ascii)
  : option match_obj :=
  match match_at r s with
  | Some found => Some (mk_match r pos s found)
  | None =>
      match s with
      | _ :: s' => search_from r (S pos) s'
      | [] => None
      end
  end.

Definition search (r : regex) (text : string) : option match_obj :=
  search_from r 0 (list_ascii_of_string text).

Definition newline : ascii := ascii_of_nat 10.

(** Three backquotes. *)
Definition fence : list ascii := list_ascii_of_string "```".

(** [```(?:java)?\n(.*?)\n```] *)
Definition CODE_PATTERN : regex :=
  Cat (Lit fence)
      (Cat (Opt (Lit (list_ascii_of_string "java")))
           (Cat (Lit [newline])
                (Cat (Group 1 LazyAny) (Lit (newline :: fence))))).

(** What the handlers do with the reply of the model before they write it
    to the file:
    [code_match = re.search(CODE_PATTERN, code, re.DOTALL)] and, if there is
    a match, [code = code_match.group(1)].  The result is the value of the
    variable afterwards. *)
Definition extract_code (code : string) : result (option string) :=
  match search CODE_PATTERN code with
  | Some code_match => group code_match 1
  | None => Ok (Some code)
  end.

End CodeBlock.

(** * Vocabulary of the statements *)

(** [re_matches r w g g']: the pattern [r] matches exactly the text [w] and
    turns the captures [g] into [g']. *)
Inductive re_matches : regex -> list ascii -> caps -> caps -> Prop :=
| M_Lit l g : re_matches (Lit l) l g g
| M_PlusSet cls w g :
    w <> [] -> forallb cls w = true -> re_matches (PlusSet cls) w g g
| M_Cat r1 r2 w1 w2 g g1 g2 :
    re_matches r1 w1 g g1 -> re_matches r2 w2 g1 g2 ->
    re_matches (Cat r1 r2) (w1 ++ w2) g g2
| M_AltL r1 r2 w g g' : re_matches r1 w g g' -> re_matches (Alt r1 r2) w g g'
| M_AltR r1 r2 w g g' : re_matches r2 w g g' -> re_matches (Alt r1 r2) w g g'
| M_Group n r w g g' :
    re_matches r w g g' -> re_matches (Group n r) w g ((n, w) :: g').

(** What an argument [(?:"([^"]+)"|([^\s"]+))] can have matched: a quoted
    non-empty run in group [i], or a bare non-empty run in group [i+1]. *)
Inductive arg_match (i : nat) (w : list ascii) (g g' : caps) : Prop :=
| AM_quoted body :
    w = Py.dquote :: body ++ [Py.dquote] -> body <> [] ->
    forallb cls_not_quote body = true -> g' = (i, body) :: g ->
    arg_match i w g g'
| AM_bare :
    w <> [] -> forallb cls_bare w = true -> g' = (S i, w) :: g ->
    arg_match i w g g'.

(** [m] is a match of [r] in the text [s], whose first character stands at
    offset [off]: [m] starts after some prefix [pre] of [s], where the
    anchored matcher succeeds. *)
Definition match_of (r : regex) (off : nat) (s : list ascii) (m : match_obj)
  : Prop :=
  exists pre suf found,
    s = pre ++ suf /\ match_at r suf = Some found /\
    m = mk_match r (off + length pre) suf found.

(** The loops collect the commands of the matches in order and stop at the
    first error. *)
Fixpoint traverse {A B : Type} (f : A -> result B) (xs : list A)
  : result (list B) :=
  match xs with
  | [] => Ok []
  | x :: rest =>
      y <- f x ;;
      ys <- traverse f rest ;;
      Ok (y :: ys)
  end.

(** The commands of one entry of the table. *)
Definition entry_commands (text : string) (entry : string * regex)
  : result (list command) :=
  traverse (match_command (fst entry)) (finditer (snd entry) text).

(** The value an argument contributes: the text between the quotes, or
    the bare run. *)
Definition arg_text (a v : list ascii) : Prop :=
  v <> [] /\
  ((a = Py.dquote :: v ++ [Py.dquote] /\ forallb cls_not_quote v = true) \/
   (a = v /\ forallb cls_bare v = true)).

(** The keywords that take one target. *)
Definition target_kinds : list string :=
  ["fix"; "improve"; "document"; "analyze"; "explain"; "refactor"; "test"].

(** Where a detected command comes from in the text [s]. *)
Inductive occurrence (s : list ascii) : command -> Prop :=
| Occ_target k pre ws a post v :
    In k target_kinds ->
    s = pre ++ list_ascii_of_string (String "/" k) ++ ws ++ a ++ post ->
    ws <> [] -> forallb Py.isspace ws = true -> arg_text a v ->
    occurrence s (k, Arg (Some (string_of_list_ascii v)))
| Occ_add pre ws a1 mid a2 post v1 v2 :
    s = pre ++ list_ascii_of_string "/add" ++ ws ++ a1 ++ mid ++ a2 ++ post ->
    arg_text a1 v1 -> arg_text a2 v2 ->
    occurrence s ("add", AddArgs (Some (string_of_list_ascii v1))
                                 (Some (string_of_list_ascii v2)))
| Occ_all pre ws post :
    s = pre ++ list_ascii_of_string "/implement" ++ ws ++
        list_ascii_of_string "all" ++ post ->
    ws <> [] -> forallb Py.isspace ws = true ->
    occurrence s ("implement", All)
| Occ_indices pre ws a post ns :
    s = pre ++ list_ascii_of_string "/implement" ++ ws ++ a ++ post ->
    ws <> [] -> forallb Py.isspace ws = true ->
    a <> [] -> forallb cls_index a = true ->
    parse_indices (Py.split Py.comma a) = Ok ns ->
    Forall (fun n => 0 <= n)%Z ns ->
    occurrence s ("implement", Indices ns).

(** [needle in text] *)
Definition contains (needle text : string) : Prop :=
  exists a b, text = (a ++ needle ++ b)%string.

(** [d] is a run of ASCII digits that stands in [s]. *)
Definition digit_run (d s : list ascii) : Prop :=
  forallb Py.is_ascii_digit d = true /\ exists a b, s = a ++ d ++ b.

(** No run of digits of [s] is longer than what [int] accepts. *)
Definition short_digit_runs (s : list ascii) : Prop :=
  forall d, digit_run d s -> length d <= Py.int_max_str_digits.

(** Some run of digits of [s] is longer than what [int] accepts. *)
Definition long_digit_run (s : list ascii) : Prop :=
  exists d, digit_run d s /\ Py.int_max_str_digits < length d.

(** The double quote as a string, for the examples. *)
Definition dq : string := String Py.dquote "".

(** An argument value that is a string, and not the empty one. *)
Definition nonempty_arg (t : option string) : Prop :=
  exists s, t = Some s /\ s <> "".

(** The target of a command, and the feature of [/add], are non-empty. *)
Definition targets_nonempty (c : command) : Prop :=
  match snd c with
  | Arg target => nonempty_arg target
  | AddArgs feature target => nonempty_arg feature /\ nonempty_arg target
  | Indices _ | All => True
  end.

(** The position of a kind in the table. *)
Fixpoint rank (table : list (string * regex)) (k : string) : nat :=
  match table with
  | [] => 0
  | (k', _) :: rest => if String.eqb k k' then 0 else S (rank rest k)
  end.

(** An occurrence: the kind of an entry with one of its matches. *)
Definition occ : Type := (string * match_obj)%type.

(** [a] is reported before [b]: its kind stands earlier in the table, or
    the kinds are the same and its match starts further left. *)
Definition reported_before (a b : occ) : Prop :=
  rank COMMAND_PATTERNS (fst a) < rank COMMAND_PATTERNS (fst b) \/
  (fst a = fst b /\ m_start (snd a) < m_start (snd b)).

Definition entry_occs (text : string) (entry : string * regex) : list occ :=
  map (pair (fst entry)) (finditer (snd entry) text).

(** [rest] does not go on with a character of [cls]. *)
Definition stops (cls : ascii -> bool) (rest : list ascii) : Prop :=
  match rest with
  | [] => True
  | c :: _ => cls c = false
  end.

(** The two shapes of a target or feature. *)
Inductive arg_shape : Type :=
| Bare (v : string)      (* a token, written as it is *)
| Quoted (v : string).   (* written between double quotes *)

Definition arg_value (a : arg_shape) : string :=
  match a with
  | Bare v | Quoted v => v
  end.

Definition render_arg (a : arg_shape) : string :=
  match a with
  | Bare v => v
  | Quoted v => (dq ++ v ++ dq)%string
  end.

(** A bare token is not empty and has neither white space nor a double
    quote; a quoted string is not empty and has no double quote. *)
Definition valid_arg (a : arg_shape) : bool :=
  match a with
  | Bare v =>
      negb (String.eqb v "") && forallb cls_bare (list_ascii_of_string v)
  | Quoted v =>
      negb (String.eqb v "") && forallb cls_not_quote (list_ascii_of_string v)
  end.

(** [str(n)] as a string. *)
Definition decimal (n : positive) : string :=
  string_of_list_ascii (Py.str (Npos n)).

(** What separates the parts of a command: a non-empty run of white
    space. *)
Definition blank (ws : string) : bool :=
  negb (String.eqb ws "") && forallb Py.isspace (list_ascii_of_string ws).

(** An entry of an index list: a positive integer in decimal, with white
    space, or none, before and after it. *)
Record index_entry : Type := Entry {
  lead : string;
  value : positive;
  trail : string
}.

Definition valid_entry (e : index_entry) : bool :=
  forallb Py.isspace (list_ascii_of_string (lead e)) &&
  forallb Py.isspace (list_ascii_of_string (trail e)).

Definition render_entry (e : index_entry) : string :=
  (lead e ++ decimal (value e) ++ trail e)%string.

(** The entries of a non-empty list, separated by commas. *)
Fixpoint join_entries (e : index_entry) (es : list index_entry) : string :=
  match es with
  | [] => render_entry e
  | e' :: es' => (render_entry e ++ "," ++ join_entries e' es')%string
  end.

(** The integers of an index list. *)
Definition entry_values (es : list index_entry) : list Z :=
  map (fun e => Z.pos (value e)) es.

(** A command string of the grammar table: the keyword, white space and
    the argument. *)
Inductive generated : Type :=
| GenTarget (k ws : string) (a : arg_shape)
    (* /k <target> *)
| GenAdd (ws1 : string) (feature : arg_shape) (ws2 ws3 : string)
         (target : arg_shape)
    (* /add <feature> to <target> *)
| GenImplementAll (ws : string)
    (* /implement all *)
| GenImplement (ws : string) (e : index_entry) (es : list index_entry)
    (* /implement n, ... *).

Definition valid (c : generated) : bool :=
  match c with
  | GenTarget k ws a =>
      existsb (String.eqb k) target_kinds && blank ws && valid_arg a
  | GenAdd ws1 feature ws2 ws3 target =>
      blank ws1 && valid_arg feature && blank ws2 && blank ws3 &&
      valid_arg target
  | GenImplementAll ws => blank ws
  | GenImplement ws e es => blank ws && forallb valid_entry (e :: es)
  end.

Definition render (c : generated) : string :=
  match c with
  | GenTarget k ws a => String "/" k ++ ws ++ render_arg a
  | GenAdd ws1 feature ws2 ws3 target =>
      "/add" ++ ws1 ++ render_arg feature ++ ws2 ++ "to" ++ ws3 ++
      render_arg target
  | GenImplementAll ws => "/implement" ++ ws ++ "all"
  | GenImplement ws e es => "/implement" ++ ws ++ join_entries e es
  end%string.

Definition expected (c : generated) : command :=
  match c with
  | GenTarget k _ a => (k, Arg (Some (arg_value a)))
  | GenAdd _ feature _ _ target =>
      ("add", AddArgs (Some (arg_value feature)) (Some (arg_value target)))
  | GenImplementAll _ => ("implement", All)
  | GenImplement _ e es => ("implement", Indices (entry_values (e :: es)))
  end.

(** The group an argument of shape [a] is captured in. *)
Definition arg_group (i : nat) (a : arg_shape) : nat :=
  match a with
  | Quoted _ => i
  | Bare _ => S i
  end.

(** What may follow an argument in the text for its match to end there. *)
Definition arg_ends (a : arg_shape) (rest : list ascii) : Prop :=
  match a with
  | Quoted _ => True
  | Bare _ => stops cls_bare rest
  end.

(** The entries [_extract_commands] loops over, in its order. *)
Definition extract_entries : list (string * regex) :=
  [ ("fix", CommandProcessor.FIX_PATTERN);
    ("improve", CommandProcessor.IMPROVE_PATTERN);
    ("document", CommandProcessor.DOCUMENT_PATTERN);
    ("add", CommandProcessor.ADD_PATTERN);
    ("explain", CommandProcessor.EXPLAIN_PATTERN) ].

(** The one command [_extract_commands] appends for [/help]. *)
Definition help_command : command := ("help", Arg None).

(** The kinds [_extract_commands] knows besides help. *)
Definition extract_kind (c : command) : bool :=
  existsb (String.eqb (fst c)) ["fix"; "improve"; "document"; "add"; "explain"].

(** A line break, and the closing fence: a line break and three
    backquotes. *)
Definition nl : string := String CodeBlock.newline "".

Definition closing : string := String CodeBlock.newline "```".

(** The part of the code-block pattern after the language tag. *)
Definition body_pattern : CodeBlock.regex :=
  CodeBlock.Cat (CodeBlock.Lit [CodeBlock.newline])
    (CodeBlock.Cat (CodeBlock.Group 1 CodeBlock.LazyAny)
                   (CodeBlock.Lit (CodeBlock.newline :: CodeBlock.fence))).

(** The language tags the code-block pattern accepts: none, or [java]. *)
Definition tag_ok (lang : list ascii) : Prop :=
  lang = [] \/ lang = list_ascii_of_string "java".

(** The backquote. *)
Definition backquote : ascii := "`"%char.

(** * The matcher against a declarative reading of the patterns *)

Lemma strip_prefix_Some l : forall s s',
  strip_prefix l s = Some s' -> s = l ++ s'.
Proof.
  induction l as [|a l IH]; simpl; intros s s' H.
  - now inversion H.
  - destruct s as [|c s]; [discriminate|].
    destruct (Ascii.eqb a c) eqn:E; [|discriminate].
    apply Ascii.eqb_eq in E. subst c. f_equal. auto.
Qed.

Lemma strip_prefix_app l s : strip_prefix l (l ++ s) = Some s.
Proof.
  induction l as [|a l IH]; simpl; [reflexivity|].
  now rewrite Ascii.eqb_refl.
Qed.

Lemma firstn_consumed (w s' : list ascii) :
  firstn (length (w ++ s') - length s') (w ++ s') = w.
Proof.
  rewrite length_app, Nat.add_sub.
  rewrite firstn_app, Nat.sub_diag, firstn_all. simpl. apply app_nil_r.
Qed.

Lemma plus_set_sound {A} cls : forall s g (k : cont A) x,
  plus_set cls s g k = Some x ->
  exists w s', s = w ++ s' /\ w <> [] /\ forallb cls w = true /\
               k s' g = Some x.
Proof.
  induction s as [|c s IH]; simpl; intros g k x H; [discriminate|].
  destruct (cls c) eqn:Ec; [|discriminate].
  destruct (plus_set cls s g k) eqn:Ep.
  - inversion H; subst.
    destruct (IH _ _ _ Ep) as (w & s' & -> & Hw & Hall & Hk).
    exists (c :: w), s'. simpl. rewrite Ec, Hall. repeat split; auto.
    discriminate.
  - exists [c], s. simpl. rewrite Ec. repeat split; auto. discriminate.
Qed.

Lemma rmatch_sound {A} r : forall s g (k : cont A) x,
  rmatch r s g k = Some x ->
  exists w s' g', s = w ++ s' /\ re_matches r w g g' /\ k s' g' = Some x.
Proof.
  induction r as [l|cls|r1 IH1 r2 IH2|r1 IH1 r2 IH2|n r IH];
    simpl; intros s g k x H.
  - destruct (strip_prefix l s) as [s'|] eqn:E; [|discriminate].
    apply strip_prefix_Some in E. exists l, s', g.
    repeat split; auto. constructor.
  - destruct (plus_set_sound _ _ _ _ _ H) as (w & s' & -> & Hw & Hall & Hk).
    exists w, s', g. repeat split; auto. now constructor.
  - destruct (IH1 _ _ _ _ H) as (w1 & s1 & g1 & -> & M1 & H1).
    destruct (IH2 _ _ _ _ H1) as (w2 & s2 & g2 & -> & M2 & H2).
    exists (w1 ++ w2), s2, g2. rewrite app_assoc.
    repeat split; auto. econstructor; eauto.
  - destruct (rmatch r1 s g k) eqn:E.
    + inversion H; subst.
      destruct (IH1 _ _ _ _ E) as (w & s' & g' & -> & M & Hk).
      exists w, s', g'. repeat split; auto. now apply M_AltL.
    + destruct (IH2 _ _ _ _ H) as (w & s' & g' & -> & M & Hk).
      exists w, s', g'. repeat split; auto. now apply M_AltR.
  - destruct (IH _ _ _ _ H) as (w & s' & g' & -> & M & Hk).
    rewrite firstn_consumed in Hk.
    exists w, s', ((n, w) :: g'). repeat split; auto. now constructor.
Qed.

Lemma match_at_sound r s g s' :
  match_at r s = Some (g, s') -> exists w, s = w ++ s' /\ re_matches r w [] g.
Proof.
  unfold match_at. intros H.
  destruct (rmatch_sound _ _ _ _ _ H) as (w & s1 & g1 & -> & M & Hk).
  inversion Hk; subst. eauto.
Qed.

Lemma arg_pattern_inv i w g g' :
  re_matches (arg_pattern i) w g g' -> arg_match i w g g'.
Proof.
  unfold arg_pattern. intros H.
  inversion H as [| | |? ? ? ? ? HL|? ? ? ? ? HR|]; subst; clear H.
  - inversion HL as [| |? ? ? ? ? ? ? H1 H2| | |]; subst; clear HL.
    inversion H1; subst; clear H1.
    inversion H2 as [| |? ? ? ? ? ? ? H3 H4| | |]; subst; clear H2.
    inversion H4; subst; clear H4.
    inversion H3 as [| | | | |? ? ? ? ? H5]; subst; clear H3.
    inversion H5; subst; clear H5.
    now eapply AM_quoted.
  - inversion HR as [| | | | |? ? ? ? ? H5]; subst; clear HR.
    inversion H5; subst; clear H5.
    now apply AM_bare.
Qed.

Lemma target_pattern_inv kw w g :
  re_matches (target_pattern kw) w [] g ->
  exists ws a, w = list_ascii_of_string kw ++ ws ++ a /\ ws <> [] /\
               forallb Py.isspace ws = true /\ arg_match 1 a [] g.
Proof.
  unfold target_pattern, lit. intros H.
  inversion H as [| |? ? ? ? ? ? ? H1 H2| | |]; subst; clear H.
  inversion H1; subst; clear H1.
  inversion H2 as [| |? ? ? ? ? ? ? H3 H4| | |]; subst; clear H2.
  inversion H3; subst; clear H3.
  apply arg_pattern_inv in H4. eauto 10.
Qed.

Lemma add_pattern_inv w g :
  re_matches add_pattern w [] g ->
  exists ws1 a1 ws2 ws3 a2 g1,
    w = list_ascii_of_string "/add" ++ ws1 ++ a1 ++ ws2 ++
        list_ascii_of_string "to" ++ ws3 ++ a2 /\
    ws1 <> [] /\ forallb Py.isspace ws1 = true /\
    arg_match 1 a1 [] g1 /\ arg_match 3 a2 g1 g.
Proof.
  unfold add_pattern, lit. intros H.
  inversion H as [| |? ? ? ? ? ? ? H1 H2| | |]; subst; clear H.
  inversion H1; subst; clear H1.
  inversion H2 as [| |? ? ? ? ? ? ? H3 H4| | |]; subst; clear H2.
  inversion H3; subst; clear H3.
  inversion H4 as [| |? ? ? ? ? ? ? H5 H6| | |]; subst; clear H4.
  apply arg_pattern_inv in H5.
  inversion H6 as [| |? ? ? ? ? ? ? H7 H8| | |]; subst; clear H6.
  inversion H7; subst; clear H7.
  inversion H8 as [| |? ? ? ? ? ? ? H9 H10| | |]; subst; clear H8.
  inversion H9; subst; clear H9.
  inversion H10 as [| |? ? ? ? ? ? ? H11 H12| | |]; subst; clear H10.
  inversion H11; subst; clear H11.
  apply arg_pattern_inv in H12.
  do 6 eexists. repeat split; eauto.
Qed.

Lemma implement_pattern_inv w g :
  re_matches implement_pattern w [] g ->
  exists ws, ws <> [] /\ forallb Py.isspace ws = true /\
    ((w = list_ascii_of_string "/implement" ++ ws ++
          list_ascii_of_string "all" /\ g = []) \/
     (exists body, w = list_ascii_of_string "/implement" ++ ws ++ body /\
        body <> [] /\ forallb cls_index body = true /\ g = [(1, body)])).
Proof.
  unfold implement_pattern, lit. intros H.
  inversion H as [| |? ? ? ? ? ? ? H1 H2| | |]; subst; clear H.
  inversion H1; subst; clear H1.
  inversion H2 as [| |? ? ? ? ? ? ? H3 H4| | |]; subst; clear H2.
  inversion H3; subst; clear H3.
  match goal with
  | Hn : ?ws <> [], Ha : forallb _ ?ws = true |- _ =>
      exists ws; split; [exact Hn|]; split; [exact Ha|]
  end.
  inversion H4 as [| | |? ? ? ? ? HL|? ? ? ? ? HR|]; subst; clear H4.
  - inversion HL; subst. now left.
  - inversion HR as [| | | | |? ? ? ? ? H5]; subst; clear HR.
    inversion H5; subst. right. eauto.
Qed.

(** * The scan *)

Lemma match_of_cons r off c s m :
  match_of r (S off) s m -> match_of r off (c :: s) m.
Proof.
  intros (pre & suf & found & -> & Hm & ->).
  exists (c :: pre), suf, found. repeat split; auto.
  simpl. now rewrite Nat.add_succ_r.
Qed.

Lemma finditer_from_sound r : forall s pos skip m,
  In m (finditer_from r pos skip s) -> match_of r pos s m.
Proof.
  induction s as [|c s IH]; simpl; intros pos skip m H.
  - destruct skip; [|contradiction].
    destruct (match_at r []) as [found|] eqn:E; [|contradiction].
    destruct H as [<-|[]].
    exists [], [], found. simpl. now rewrite Nat.add_0_r.
  - destruct skip as [|n].
    + destruct (match_at r (c :: s)) as [found|] eqn:E.
      * destruct H as [<-|H].
        -- exists [], (c :: s), found. simpl. now rewrite Nat.add_0_r.
        -- apply match_of_cons. eauto.
      * apply match_of_cons. eauto.
    + apply match_of_cons. eauto.
Qed.

Lemma finditer_sound r text m :
  In m (finditer r text) -> match_of r 0 (list_ascii_of_string text) m.
Proof. apply finditer_from_sound. Qed.

Lemma finditer_from_start r : forall s pos skip m,
  In m (finditer_from r pos skip s) -> pos <= m_start m.
Proof.
  intros s pos skip m H. apply finditer_from_sound in H.
  destruct H as (pre & suf & found & _ & _ & ->). simpl. lia.
Qed.

(** The matches come in the order of their first characters. *)
Lemma finditer_from_sorted r : forall s pos skip,
  StronglySorted (fun a b => m_start a < m_start b)
                 (finditer_from r pos skip s).
Proof.
  induction s as [|c s IH]; simpl; intros pos skip.
  - destruct skip; [|constructor].
    destruct (match_at r []); repeat constructor.
  - destruct skip as [|n]; [|apply IH].
    destruct (match_at r (c :: s)) as [found|]; [|apply IH].
    constructor; [apply IH|].
    apply Forall_forall. intros m Hm.
    apply finditer_from_start in Hm. simpl. lia.
Qed.

(** The first match of the scan is the anchored one when there is one. *)
Lemma finditer_head r text found :
  text <> "" ->
  match_at r (list_ascii_of_string text) = Some found ->
  exists rest,
    finditer r text
    = mk_match r 0 (list_ascii_of_string text) found :: rest.
Proof.
  unfold finditer. destruct text as [|c t]; [congruence|].
  simpl. intros _ ->. eauto.
Qed.

(** No match anywhere when the anchored matcher fails at every suffix. *)
Lemma finditer_from_nil r : forall s pos skip,
  (forall pre suf, s = pre ++ suf -> match_at r suf = None) ->
  finditer_from r pos skip s = [].
Proof.
  induction s as [|c s IH]; simpl; intros pos skip H.
  - rewrite (H [] [] eq_refl). now destruct skip.
  - assert (Hs : forall pre suf, s = pre ++ suf -> match_at r suf = None).
    { intros pre suf ->. now apply (H (c :: pre)). }
    destruct skip; [|auto].
    rewrite (H [] (c :: s) eq_refl). auto.
Qed.

(** * The two loops of [detect_commands] *)

Lemma traverse_Ok {A B} (f : A -> result B) : forall xs ys,
  traverse f xs = Ok ys <-> Forall2 (fun x y => f x = Ok y) xs ys.
Proof.
  induction xs as [|x xs IH]; simpl; intros ys.
  - split; intros H; inversion H; subst; auto.
  - split; intros H.
    + destruct (f x) as [y|] eqn:Ef; simpl in H; [|discriminate].
      destruct (traverse f xs) as [ys'|] eqn:Et; simpl in H; [|discriminate].
      inversion H; subst. constructor; auto. now apply IH.
    + inversion H as [|? y ? ys' Hf Hrest]; subst.
      rewrite Hf. simpl. apply IH in Hrest. now rewrite Hrest.
Qed.

Lemma each_match_traverse cmd_type : forall ms commands,
  each_match cmd_type ms commands
  = (cs <- traverse (match_command cmd_type) ms ;; Ok (commands ++ cs)).
Proof.
  induction ms as [|m ms IH]; simpl; intros commands.
  - now rewrite app_nil_r.
  - destruct (match_command cmd_type m) as [c|e]; simpl; [|reflexivity].
    rewrite IH.
    destruct (traverse (match_command cmd_type) ms) as [cs|e]; simpl;
      [|reflexivity].
    now rewrite <- app_assoc.
Qed.

Lemma each_pattern_traverse text : forall patterns commands,
  each_pattern patterns text commands
  = (css <- traverse (entry_commands text) patterns ;;
     Ok (commands ++ concat css)).
Proof.
  induction patterns as [|[k p] ps IH]; simpl; intros commands.
  - now rewrite app_nil_r.
  - rewrite each_match_traverse. unfold entry_commands at 1. simpl.
    destruct (traverse (match_command k) (finditer p text)) as [cs|e];
      simpl; [|reflexivity].
    rewrite IH.
    destruct (traverse (entry_commands text) ps) as [css|e]; simpl;
      [|reflexivity].
    now rewrite app_assoc.
Qed.

Lemma detect_commands_traverse text :
  detect_commands text
  = (css <- traverse (entry_commands text) COMMAND_PATTERNS ;;
     Ok (concat css)).
Proof. unfold detect_commands. now rewrite each_pattern_traverse. Qed.

Lemma detect_commands_Ok text cmds :
  detect_commands text = Ok cmds <->
  exists css,
    Forall2 (fun e cs => entry_commands text e = Ok cs) COMMAND_PATTERNS css /\
    cmds = concat css.
Proof.
  rewrite detect_commands_traverse. split.
  - destruct (traverse (entry_commands text) COMMAND_PATTERNS) as [css|e]
      eqn:E; simpl; intros H; inversion H; subst.
    exists css. split; auto. now apply traverse_Ok.
  - intros (css & H & ->). apply traverse_Ok in H. now rewrite H.
Qed.

Lemma Forall2_In_r {A B} (R : A -> B -> Prop) xs ys y :
  Forall2 R xs ys -> In y ys -> exists x, In x xs /\ R x y.
Proof.
  induction 1 as [|x y' xs ys HR HF IH]; simpl; [contradiction|].
  intros [<-|H]; [eauto|]. destruct (IH H) as (x' & ? & ?). eauto.
Qed.

Lemma Forall2_In_l {A B} (R : A -> B -> Prop) xs ys x :
  Forall2 R xs ys -> In x xs -> exists y, In y ys /\ R x y.
Proof.
  induction 1 as [|x' y xs ys HR HF IH]; simpl; [contradiction|].
  intros [<-|H]; [eauto|]. destruct (IH H) as (y' & ? & ?). eauto.
Qed.

(** Every command of a normal result is the command of one match of one
    entry of the table, and conversely. *)
Lemma detect_commands_In text cmds c :
  detect_commands text = Ok cmds ->
  (In c cmds <->
   exists k p m, In (k, p) COMMAND_PATTERNS /\ In m (finditer p text) /\
                 match_command k m = Ok c).
Proof.
  intros H. apply detect_commands_Ok in H. destruct H as (css & HF & ->).
  rewrite in_concat. split.
  - intros (cs & Hcs & Hc).
    destruct (Forall2_In_r _ _ _ _ HF Hcs) as ([k p] & Hin & He).
    unfold entry_commands in He. simpl in He. apply traverse_Ok in He.
    destruct (Forall2_In_r _ _ _ _ He Hc) as (m & Hm & Hcmd).
    eauto 10.
  - intros (k & p & m & Hin & Hm & Hcmd).
    destruct (Forall2_In_l _ _ _ _ HF Hin) as (cs & Hcs & He).
    unfold entry_commands in He. simpl in He. apply traverse_Ok in He.
    destruct (Forall2_In_l _ _ _ _ He Hm) as (c' & Hc' & Hcmd').
    rewrite Hcmd in Hcmd'. inversion Hcmd'; subst. eauto.
Qed.

(** * What one match turns into *)

Lemma string_of_list_ascii_nonempty v :
  v <> [] -> string_of_list_ascii v <> "".
Proof. destruct v; simpl; congruence. Qed.

Lemma match_command_kind k m c : match_command k m = Ok c -> fst c = k.
Proof.
  unfold match_command.
  destruct (existsb _ _); [destruct (String.eqb k "add")|].
  - destruct (group_or m 1 2); cbn [bind]; [|discriminate].
    destruct (group_or m 3 4); cbn [bind]; [|discriminate].
    now intros [= <-].
  - destruct (group m 1) as [g|]; cbn [bind]; [|discriminate].
    destruct (Py.truthy g); [|now intros [= <-]].
    destruct g as [text|]; [|discriminate].
    destruct (parse_indices _); cbn [bind]; [|discriminate].
    now intros [= <-].
  - destruct (group_or m 1 2); cbn [bind]; [|discriminate].
    now intros [= <-].
Qed.

Lemma ngroups_target kw : ngroups (target_pattern kw) = 2.
Proof. reflexivity. Qed.

Lemma truthy_captured v :
  v <> [] -> Py.truthy (Some (string_of_list_ascii v)) = true.
Proof. destruct v; simpl; congruence. Qed.

Lemma arg_match_lookup i a g g' :
  arg_match i a g g' -> lookup i g = None ->
  exists v, arg_text a v /\
    (if Py.truthy (option_map string_of_list_ascii (lookup i g'))
     then option_map string_of_list_ascii (lookup i g')
     else option_map string_of_list_ascii (lookup (S i) g'))
    = Some (string_of_list_ascii v) /\
    (forall n, n <> i -> n <> S i -> lookup n g' = lookup n g).
Proof.
  intros [body -> Hne Hall ->|Hne Hall ->] Hnone.
  - exists body. split; [split; auto|]. cbn [lookup].
    rewrite Nat.eqb_refl. cbn [option_map].
    rewrite (truthy_captured _ Hne). split; [reflexivity|].
    intros n Hn _. apply Nat.eqb_neq in Hn.
    now rewrite Nat.eqb_sym, Hn.
  - exists a. split; [split; auto|]. cbn [lookup].
    replace (S i =? i)%nat with false by (symmetry; apply Nat.eqb_neq; lia).
    rewrite Hnone, Nat.eqb_refl. cbn [option_map Py.truthy].
    split; [reflexivity|].
    intros n _ Hn. apply Nat.eqb_neq in Hn.
    now rewrite Nat.eqb_sym, Hn.
Qed.

(** A one-argument pattern: the command carries the captured text, which
    stands in the input after the keyword and white space. *)
Lemma target_match_command k kw off s m :
  existsb (String.eqb k) ["add"; "implement"] = false ->
  match_of (target_pattern kw) off s m ->
  exists pre ws a post v,
    s = pre ++ list_ascii_of_string kw ++ ws ++ a ++ post /\
    ws <> [] /\ forallb Py.isspace ws = true /\ arg_text a v /\
    match_command k m = Ok (k, Arg (Some (string_of_list_ascii v))).
Proof.
  intros Hk (pre & suf & [g rest] & -> & Hm & ->).
  apply match_at_sound in Hm. destruct Hm as (w & -> & Hw).
  apply target_pattern_inv in Hw.
  destruct Hw as (ws & a & -> & Hne & Hsp & Ha).
  destruct (arg_match_lookup _ _ _ _ Ha eq_refl) as (v & Hv & Hval & _).
  exists pre, ws, a, rest, v.
  split; [now rewrite <- !app_assoc|].
  split; [exact Hne|]. split; [exact Hsp|]. split; [exact Hv|].
  unfold match_command. rewrite Hk.
  unfold group_or, group, mk_match. simpl.
  destruct (Py.truthy _); simpl; now rewrite Hval.
Qed.

Lemma add_match_command off s m :
  match_of add_pattern off s m ->
  exists pre ws1 a1 mid a2 post v1 v2,
    s = pre ++ list_ascii_of_string "/add" ++ ws1 ++ a1 ++ mid ++ a2 ++ post /\
    arg_text a1 v1 /\ arg_text a2 v2 /\
    match_command "add" m
    = Ok ("add", AddArgs (Some (string_of_list_ascii v1))
                         (Some (string_of_list_ascii v2))).
Proof.
  intros (pre & suf & [g rest] & -> & Hm & ->).
  apply match_at_sound in Hm. destruct Hm as (w & -> & Hw).
  apply add_pattern_inv in Hw.
  destruct Hw as (ws1 & a1 & ws2 & ws3 & a2 & g1 & -> & Hne & Hsp & H1 & H2).
  destruct (arg_match_lookup _ _ _ _ H1 eq_refl) as (v1 & Hv1 & Hval1 & Hk1).
  assert (Hg1 : lookup 3 g1 = None) by (rewrite Hk1; [reflexivity|lia|lia]).
  destruct (arg_match_lookup _ _ _ _ H2 Hg1) as (v2 & Hv2 & Hval2 & Hk2).
  rewrite <- (Hk2 1), <- (Hk2 2) in Hval1 by lia.
  exists pre, ws1, a1, (ws2 ++ list_ascii_of_string "to" ++ ws3), a2, rest,
    v1, v2.
  split; [now rewrite <- !app_assoc|].
  split; [exact Hv1|]. split; [exact Hv2|].
  unfold match_command, group_or, group, mk_match. simpl.
  destruct (Py.truthy (option_map _ (lookup 1 g))); simpl;
    rewrite Hval1; simpl;
    destruct (Py.truthy (option_map _ (lookup 3 g))); simpl;
    now rewrite Hval2.
Qed.

(** ** The index list of [/implement] *)

Lemma split_forallb (P : ascii -> bool) sep : forall s,
  forallb P s = true ->
  Forall (fun p => forallb P p = true) (Py.split sep s).
Proof.
  induction s as [|c s IH]; simpl; intros H.
  - repeat constructor.
  - apply andb_true_iff in H. destruct H as [Hc Hs]. specialize (IH Hs).
    destruct (Ascii.eqb c sep).
    + constructor; auto.
    + destruct (Py.split sep s) as [|p ps]; [repeat constructor; simpl|].
      * now rewrite Hc.
      * inversion IH; subst. constructor; auto. simpl. now rewrite Hc.
Qed.

Lemma lstrip_forallb (P : ascii -> bool) : forall s,
  forallb P s = true -> forallb P (Py.lstrip s) = true.
Proof.
  induction s as [|c s IH]; simpl; intros H; [reflexivity|].
  destruct (Py.isspace c); [|exact H].
  apply andb_true_iff in H. now apply IH.
Qed.

Lemma forallb_rev (P : ascii -> bool) s :
  forallb P s = true -> forallb P (rev s) = true.
Proof.
  rewrite !forallb_forall. intros H x Hx. apply H. now apply in_rev.
Qed.

Lemma strip_forallb (P : ascii -> bool) s :
  forallb P s = true -> forallb P (Py.strip s) = true.
Proof.
  intros H. unfold Py.strip, Py.rstrip.
  now apply forallb_rev, lstrip_forallb, forallb_rev, lstrip_forallb.
Qed.

(** Among the characters of [[0-9,\s]], [isdigit] holds of the ASCII digits
    only. *)
Lemma index_digit_ascii c :
  cls_index c = true -> Py.isdigit_char c = true ->
  Py.is_ascii_digit c = true.
Proof.
  destruct c as [[] [] [] [] [] [] [] []]; vm_compute; congruence.
Qed.

Lemma uint_of_digits : forall s,
  forallb Py.is_ascii_digit s = true ->
  exists d, NilEmpty.uint_of_string (string_of_list_ascii s) = Some d.
Proof.
  induction s as [|c s IH]; simpl; intros H; [eauto|].
  apply andb_true_iff in H. destruct H as [Hc Hs].
  destruct (IH Hs) as (d & ->).
  destruct c as [[] [] [] [] [] [] [] []]; try discriminate Hc;
    simpl; eauto.
Qed.

(** [int] on a non-empty run of digits: its value, or [ValueError] when
    the run is longer than the limit. *)
Lemma int_digits s :
  s <> [] -> forallb Py.is_ascii_digit s = true ->
  (length s <= Py.int_max_str_digits /\
   exists n, Py.int s = Ok (Z.of_N n)) \/
  (Py.int_max_str_digits < length s /\ Py.int s = Raise ValueError).
Proof.
  intros Hne H. unfold Py.int. destruct s as [|c s]; [congruence|].
  rewrite H.
  destruct (Nat.ltb_spec Py.int_max_str_digits (length (c :: s))) as [Hl|Hl].
  - right. split; [exact Hl|reflexivity].
  - left. split; [exact Hl|].
    destruct (uint_of_digits _ H) as (d & ->). eauto.
Qed.

(** ** Runs of digits and the pieces of an index list *)

Lemma digit_run_infix d p s :
  digit_run d p -> (exists a b, s = a ++ p ++ b) -> digit_run d s.
Proof.
  intros (Hd & a & b & ->) (a' & b' & ->). split; [exact Hd|].
  exists (a' ++ a), (b ++ b'). now rewrite <- !app_assoc.
Qed.

Lemma short_digit_runs_infix p s :
  short_digit_runs s -> (exists a b, s = a ++ p ++ b) -> short_digit_runs p.
Proof. intros Hs Hp d Hd. apply Hs. eapply digit_run_infix; eauto. Qed.

Lemma short_not_long s : short_digit_runs s -> long_digit_run s -> False.
Proof. intros Hs (d & Hd & Hl). apply Hs in Hd. lia. Qed.

(** A text of at most 4300 characters has no longer run. *)
Lemma short_text_short_runs s :
  (length s <=? Py.int_max_str_digits)%nat = true -> short_digit_runs s.
Proof.
  intros H d (_ & a & b & ->). apply Nat.leb_le in H.
  rewrite !length_app in H. lia.
Qed.

Lemma lstrip_suffix s : exists a, s = a ++ Py.lstrip s.
Proof.
  induction s as [|c s (a & IH)]; simpl; [now exists []|].
  destruct (Py.isspace c); [|now exists []].
  exists (c :: a). simpl. now f_equal.
Qed.

Lemma rstrip_prefix s : exists b, s = Py.rstrip s ++ b.
Proof.
  unfold Py.rstrip. destruct (lstrip_suffix (rev s)) as (a & H).
  exists (rev a). apply (f_equal (@rev ascii)) in H.
  now rewrite rev_involutive, rev_app_distr in H.
Qed.

Lemma strip_infix s : exists a b, s = a ++ Py.strip s ++ b.
Proof.
  unfold Py.strip. destruct (lstrip_suffix s) as (a & Ha).
  destruct (rstrip_prefix (Py.lstrip s)) as (b & Hb).
  exists a, b. now rewrite <- Hb.
Qed.

Lemma split_head_prefix sep : forall s q qs,
  Py.split sep s = q :: qs -> exists b, s = q ++ b.
Proof.
  induction s as [|c s IH]; simpl; intros q qs H.
  - injection H as <- <-. now exists [].
  - destruct (Ascii.eqb c sep).
    + injection H as <- <-. now exists (c :: s).
    + destruct (Py.split sep s) as [|q' qs'] eqn:E.
      * injection H as <- <-. now exists s.
      * injection H as <- <-.
        destruct (IH _ _ eq_refl) as (b & ->). now exists b.
Qed.

Lemma split_infix sep : forall s p,
  In p (Py.split sep s) -> exists a b, s = a ++ p ++ b.
Proof.
  induction s as [|c s IH]; simpl; intros p H.
  - destruct H as [<-|[]]. now exists [], [].
  - destruct (Ascii.eqb c sep).
    + destruct H as [<-|H]; [now exists [], (c :: s)|].
      destruct (IH _ H) as (a & b & ->). now exists (c :: a), b.
    + destruct (Py.split sep s) as [|q qs] eqn:E.
      * destruct H as [<-|[]]. now exists [], s.
      * destruct H as [<-|H].
        -- destruct (split_head_prefix _ _ _ _ E) as (b & ->).
           now exists [], b.
        -- destruct (IH p (or_intror H)) as (a & b & ->).
           now exists (c :: a), b.
Qed.

Lemma isdigit_forallb s :
  Py.isdigit s = true -> forallb Py.isdigit_char s = true.
Proof. destruct s; [discriminate|auto]. Qed.

Lemma isdigit_nonempty s : Py.isdigit s = true -> s <> [].
Proof. destruct s; [discriminate|discriminate]. Qed.

(** On text of the class [[0-9,\s]] the comprehension reads its integers
    from digit runs; it raises, and then [ValueError], only at a run longer
    than the limit of [int]. *)
Lemma parse_indices_ok : forall pieces,
  Forall (fun p => forallb cls_index p = true) pieces ->
  (exists ns, parse_indices pieces = Ok ns /\
              Forall (fun n => 0 <= n)%Z ns) \/
  (parse_indices pieces = Raise ValueError /\
   exists p, In p pieces /\ digit_run (Py.strip p) p /\
             Py.int_max_str_digits < length (Py.strip p)).
Proof.
  induction pieces as [|p ps IH]; simpl; intros H.
  - left. exists []. split; [reflexivity|constructor].
  - inversion H as [|? ? Hp Hps]; subst.
    destruct (Py.isdigit (Py.strip p)) eqn:Ed.
    + assert (Hd : forallb Py.is_ascii_digit (Py.strip p) = true).
      { apply forallb_forall. intros c Hc.
        apply index_digit_ascii.
        - apply strip_forallb in Hp.
          rewrite forallb_forall in Hp. now apply Hp.
        - apply isdigit_forallb in Ed.
          rewrite forallb_forall in Ed. now apply Ed. }
      destruct (int_digits _ (isdigit_nonempty _ Ed) Hd)
        as [(_ & n & ->)|(Hl & ->)].
      * destruct (IH Hps) as [(ns & Hns & Hpos)|(Hr & q & Hq & Hrun)].
        -- left. simpl. rewrite Hns. simpl.
           exists (Z.of_N n :: ns). split; [reflexivity|].
           constructor; [apply N2Z.is_nonneg|assumption].
        -- right. simpl. rewrite Hr. split; [reflexivity|].
           exists q. split; [now right|exact Hrun].
      * right. split; [reflexivity|]. exists p.
        split; [now left|]. split; [|exact Hl].
        split; [exact Hd|apply strip_infix].
    + destruct (IH Hps) as [Hok|(Hr & q & Hq & Hrun)]; [now left|].
      right. split; [exact Hr|]. exists q. split; [now right|exact Hrun].
Qed.

Lemma implement_match_command off s m :
  match_of implement_pattern off s m ->
  exists pre ws a post,
    s = pre ++ list_ascii_of_string "/implement" ++ ws ++ a ++ post /\
    ws <> [] /\ forallb Py.isspace ws = true /\
    ((a = list_ascii_of_string "all" /\
      match_command "implement" m = Ok ("implement", All)) \/
     (a <> [] /\ forallb cls_index a = true /\
      ((exists ns,
          parse_indices (Py.split Py.comma a) = Ok ns /\
          Forall (fun n => 0 <= n)%Z ns /\
          match_command "implement" m = Ok ("implement", Indices ns)) \/
       (match_command "implement" m = Raise ValueError /\
        long_digit_run a)))).
Proof.
  intros (pre & suf & [g rest] & -> & Hm & ->).
  apply match_at_sound in Hm. destruct Hm as (w & -> & Hw).
  apply implement_pattern_inv in Hw.
  destruct Hw as (ws & Hne & Hsp & [[-> ->]|(body & -> & Hb & Hall & ->)]).
  - exists pre, ws, (list_ascii_of_string "all"), rest.
    split; [now rewrite <- !app_assoc|].
    split; [exact Hne|]. split; [exact Hsp|]. left. split; reflexivity.
  - exists pre, ws, body, rest.
    split; [now rewrite <- !app_assoc|].
    split; [exact Hne|]. split; [exact Hsp|]. right.
    split; [exact Hb|]. split; [exact Hall|].
    destruct (parse_indices_ok _ (split_forallb _ Py.comma _ Hall))
      as [(ns & Hns & Hpos)|(Hr & p & Hp & Hrun & Hl)].
    + left. exists ns. split; [exact Hns|]. split; [exact Hpos|].
      unfold match_command, group, mk_match.
      cbn -[parse_indices Py.split Py.truthy Py.comma].
      rewrite (truthy_captured _ Hb).
      rewrite list_ascii_of_string_of_list_ascii, Hns. reflexivity.
    + right. split.
      * unfold match_command, group, mk_match.
        cbn -[parse_indices Py.split Py.truthy Py.comma].
        rewrite (truthy_captured _ Hb).
        rewrite list_ascii_of_string_of_list_ascii, Hr. reflexivity.
      * exists (Py.strip p). split; [|exact Hl].
        eapply digit_run_infix; [exact Hrun|].
        eapply split_infix; exact Hp.
Qed.

(** ** [/help]: [match.group(1)] on a pattern without groups *)

Lemma help_match_command off s m :
  match_of help_pattern off s m -> match_command "help" m = Raise IndexError.
Proof. intros (pre & suf & found & _ & _ & ->). reflexivity. Qed.

(** * The table as a whole *)

Lemma COMMAND_PATTERNS_cases k p :
  In (k, p) COMMAND_PATTERNS ->
  (In k target_kinds /\ p = target_pattern (String "/" k)) \/
  (k = "add" /\ p = add_pattern) \/
  (k = "implement" /\ p = implement_pattern) \/
  (k = "help" /\ p = help_pattern).
Proof.
  unfold COMMAND_PATTERNS, target_kinds. simpl.
  intros H.
  repeat (destruct H as [H|H];
          [inversion H; subst; clear H; simpl; tauto|]).
  contradiction.
Qed.

Lemma target_kinds_plain k :
  In k target_kinds -> existsb (String.eqb k) ["add"; "implement"] = false.
Proof.
  unfold target_kinds. simpl. intros H.
  repeat (destruct H as [<-|H]; [reflexivity|]). contradiction.
Qed.

(** What the loop body does with a match of each entry. *)
Lemma entry_match_command text k p m :
  In (k, p) COMMAND_PATTERNS -> In m (finditer p text) ->
  (k = "help" /\ match_command k m = Raise IndexError) \/
  (k <> "help" /\
   exists c, match_command k m = Ok c /\
             occurrence (list_ascii_of_string text) c) \/
  (k = "implement" /\ match_command k m = Raise ValueError /\
   long_digit_run (list_ascii_of_string text)).
Proof.
  intros Hin Hm. apply finditer_sound in Hm.
  destruct (COMMAND_PATTERNS_cases _ _ Hin)
    as [[Hk ->]|[[-> ->]|[[-> ->]|[-> ->]]]].
  - right. left. split.
    { intros ->. unfold target_kinds in Hk. simpl in Hk.
      repeat (destruct Hk as [Hk|Hk]; [discriminate|]). contradiction. }
    destruct (target_match_command k _ _ _ _ (target_kinds_plain _ Hk) Hm)
      as (pre & ws & a & post & v & Hs & Hne & Hsp & Hv & Hc).
    eexists. split; [exact Hc|]. eapply Occ_target; eauto.
  - right. left. split; [discriminate|].
    destruct (add_match_command _ _ _ Hm)
      as (pre & ws & a1 & mid & a2 & post & v1 & v2 & Hs & H1 & H2 & Hc).
    eexists. split; [exact Hc|]. eapply Occ_add; eauto.
  - right.
    destruct (implement_match_command _ _ _ Hm)
      as (pre & ws & a & post & Hs & Hne & Hsp &
          [[-> Hc]|(Ha & Hall &
                    [(ns & Hns & Hpos & Hc)|(Hc & Hlong)])]).
    + left. split; [discriminate|].
      eexists. split; [exact Hc|]. eapply Occ_all; eauto.
    + left. split; [discriminate|].
      eexists. split; [exact Hc|]. eapply Occ_indices; eauto.
    + right. split; [reflexivity|]. split; [exact Hc|].
      destruct Hlong as (d & Hd & Hl). exists d. split; [|exact Hl].
      eapply digit_run_infix; [exact Hd|].
      exists (pre ++ list_ascii_of_string "/implement" ++ ws), post.
      rewrite Hs. now rewrite <- !app_assoc.
  - left. split; [reflexivity|]. eapply help_match_command; eauto.
Qed.

Lemma detect_commands_occurrence text cmds c :
  detect_commands text = Ok cmds -> In c cmds ->
  occurrence (list_ascii_of_string text) c.
Proof.
  intros H Hc. apply (detect_commands_In _ _ c H) in Hc.
  destruct Hc as (k & p & m & Hin & Hm & Hcmd).
  destruct (entry_match_command _ _ _ _ Hin Hm)
    as [[_ Hr]|[(_ & c' & Hc' & Hocc)|(_ & Hr & _)]]; congruence.
Qed.

Lemma traverse_total {A B} (f : A -> result B) : forall xs,
  (forall x, In x xs -> exists y, f x = Ok y) ->
  exists ys, traverse f xs = Ok ys.
Proof.
  induction xs as [|x xs IH]; simpl; intros H; [eauto|].
  destruct (H x (or_introl eq_refl)) as (y & ->).
  destruct IH as (ys & ->); [auto|]. simpl. eauto.
Qed.

Lemma traverse_app {A B} (f : A -> result B) ys : forall xs,
  traverse f (xs ++ ys)
  = (a <- traverse f xs ;; b <- traverse f ys ;; Ok (a ++ b)).
Proof.
  induction xs as [|x xs IH]; simpl.
  - now destruct (traverse f ys).
  - destruct (f x) as [y|e]; [|reflexivity]. simpl. rewrite IH.
    destruct (traverse f xs) as [a|e]; [|reflexivity]. simpl.
    now destruct (traverse f ys).
Qed.

(** A traversal that raises raises the error of one of its elements. *)
Lemma traverse_raise {A B} (f : A -> result B) e : forall xs,
  traverse f xs = Raise e -> exists x, In x xs /\ f x = Raise e.
Proof.
  induction xs as [|x xs IH]; simpl; intros H; [discriminate|].
  destruct (f x) as [y|e'] eqn:E.
  - simpl in H. destruct (traverse f xs) as [ys|e'']; [discriminate|].
    simpl in H. injection H as ->.
    destruct (IH eq_refl) as (x' & Hx' & Hr). exists x'. split; auto.
  - simpl in H. injection H as ->. exists x. split; auto.
Qed.

(** An entry other than help raises only on an index list with a run of
    digits longer than the limit of [int]. *)
Lemma entry_commands_cases text k p :
  In (k, p) COMMAND_PATTERNS -> k <> "help" ->
  (exists cs, entry_commands text (k, p) = Ok cs) \/
  (k = "implement" /\ entry_commands text (k, p) = Raise ValueError /\
   long_digit_run (list_ascii_of_string text)).
Proof.
  intros Hin Hk.
  destruct (entry_commands text (k, p)) as [cs|e] eqn:E; [eauto|].
  right. unfold entry_commands in E.
  destruct (traverse_raise _ _ _ E) as (m & Hm & Hr). simpl in Hm, Hr.
  destruct (entry_match_command _ _ _ _ Hin Hm)
    as [[-> _]|[(_ & c & Hc & _)|(-> & Hv & Hlong)]]; try congruence.
  split; [reflexivity|]. split; [congruence|exact Hlong].
Qed.

Lemma entry_commands_plain text k p :
  In (k, p) COMMAND_PATTERNS -> k <> "help" -> k <> "implement" ->
  exists cs, entry_commands text (k, p) = Ok cs.
Proof.
  intros Hin Hk Hi.
  destruct (entry_commands_cases text _ _ Hin Hk) as [H|(-> & _)];
    [exact H|congruence].
Qed.

Lemma COMMAND_PATTERNS_last :
  COMMAND_PATTERNS = removelast COMMAND_PATTERNS ++ [("help", help_pattern)].
Proof. reflexivity. Qed.

(** What [detect_commands] raises, and where: [IndexError] at a match of
    [/help], [ValueError] at a run of digits longer than the limit. *)
Lemma detect_commands_raise text e :
  detect_commands text = Raise e ->
  (e = IndexError /\ finditer help_pattern text <> []) \/
  (e = ValueError /\ long_digit_run (list_ascii_of_string text)).
Proof.
  rewrite detect_commands_traverse. intros H.
  destruct (traverse (entry_commands text) COMMAND_PATTERNS) as [css|e'] eqn:E;
    [discriminate|].
  simpl in H. injection H as ->.
  destruct (traverse_raise _ _ _ E) as ([k p] & Hin & Hr).
  unfold entry_commands in Hr.
  destruct (traverse_raise _ _ _ Hr) as (m & Hm & Hc). simpl in Hm, Hc.
  destruct (entry_match_command _ _ _ _ Hin Hm)
    as [[-> Hi]|[(_ & c & Hok & _)|(-> & Hv & Hlong)]]; try congruence.
  - left. split; [congruence|].
    destruct (COMMAND_PATTERNS_cases _ _ Hin)
      as [[Hk _]|[[Hk _]|[[Hk _]|[_ ->]]]]; try discriminate.
    + unfold target_kinds in Hk. simpl in Hk.
      repeat (destruct Hk as [Hk|Hk]; [discriminate|]). contradiction.
    + intros Hnil. rewrite Hnil in Hm. destruct Hm.
  - right. split; [congruence|exact Hlong].
Qed.

(** Without a match of [/help] and without an over-long run of digits the
    function returns normally. *)
Lemma detect_commands_without_help text :
  finditer help_pattern text = [] ->
  short_digit_runs (list_ascii_of_string text) ->
  exists cmds, detect_commands text = Ok cmds.
Proof.
  intros Hh Hs. destruct (detect_commands text) as [cmds|e] eqn:E; [eauto|].
  destruct (detect_commands_raise _ _ E) as [[_ Hne]|[_ Hl]].
  - congruence.
  - destruct (short_not_long _ Hs Hl).
Qed.

(** With a match of [/help] it raises: [IndexError] at the match, unless
    an index list raised [ValueError] before. *)
Lemma detect_commands_with_help text :
  finditer help_pattern text <> [] ->
  detect_commands text = Raise IndexError \/
  (detect_commands text = Raise ValueError /\
   long_digit_run (list_ascii_of_string text)).
Proof.
  intros Hh.
  assert (Hr : exists e, detect_commands text = Raise e).
  { rewrite detect_commands_traverse, COMMAND_PATTERNS_last, traverse_app.
    destruct (traverse (entry_commands text) (removelast COMMAND_PATTERNS))
      as [css|e]; [|now exists e].
    exists IndexError. cbn [bind traverse]. unfold entry_commands at 1.
    cbn [fst snd].
    destruct (finditer help_pattern text) as [|m ms] eqn:E; [congruence|].
    assert (Hm : In m (finditer help_pattern text)) by (rewrite E; now left).
    apply finditer_sound in Hm. cbn [traverse].
    now rewrite (help_match_command _ _ _ Hm). }
  destruct Hr as (e & Hr).
  destruct (detect_commands_raise _ _ Hr) as [[-> _]|[-> Hl]]; auto.
Qed.

Lemma detect_commands_with_help_short text :
  finditer help_pattern text <> [] ->
  short_digit_runs (list_ascii_of_string text) ->
  detect_commands text = Raise IndexError.
Proof.
  intros Hh Hs.
  destruct (detect_commands_with_help _ Hh) as [H|[_ Hl]]; [exact H|].
  destruct (short_not_long _ Hs Hl).
Qed.

(** * Occurrences of [/help] *)

Lemma list_ascii_of_string_app (a b : string) :
  list_ascii_of_string (a ++ b)%string
  = list_ascii_of_string a ++ list_ascii_of_string b.
Proof. induction a as [|c a IH]; simpl; [reflexivity|now rewrite IH]. Qed.

Lemma string_of_list_ascii_app (a b : list ascii) :
  string_of_list_ascii (a ++ b)
  = (string_of_list_ascii a ++ string_of_list_ascii b)%string.
Proof. induction a as [|c a IH]; simpl; [reflexivity|now rewrite IH]. Qed.

Lemma contains_list needle text :
  contains needle text <->
  exists pre post,
    list_ascii_of_string text
    = pre ++ list_ascii_of_string needle ++ post.
Proof.
  split.
  - intros (a & b & ->). exists (list_ascii_of_string a),
      (list_ascii_of_string b).
    now rewrite !list_ascii_of_string_app.
  - intros (pre & post & H).
    exists (string_of_list_ascii pre), (string_of_list_ascii post).
    rewrite <- (string_of_list_ascii_of_string text), H.
    rewrite !string_of_list_ascii_app.
    now rewrite string_of_list_ascii_of_string.
Qed.

Lemma match_at_lit l rest : match_at (Lit l) (l ++ rest) = Some ([], rest).
Proof. unfold match_at. simpl. now rewrite strip_prefix_app. Qed.

Lemma finditer_from_complete r found suf : forall pre pos,
  match_at r suf = Some found -> finditer_from r pos 0 (pre ++ suf) <> [].
Proof.
  induction pre as [|c pre IH]; simpl; intros pos H.
  - destruct suf; simpl; rewrite H; discriminate.
  - destruct (match_at r (c :: pre ++ suf)); [discriminate|]. now apply IH.
Qed.

Lemma finditer_help_found text :
  contains "/help" text -> finditer help_pattern text <> [].
Proof.
  intros H. apply contains_list in H. destruct H as (pre & post & H).
  unfold finditer. rewrite H.
  eapply finditer_from_complete. apply match_at_lit.
Qed.

Lemma finditer_help_none text :
  ~ contains "/help" text -> finditer help_pattern text = [].
Proof.
  intros H. apply finditer_from_nil. intros pre suf Hs.
  destruct (match_at help_pattern suf) as [[g rest]|] eqn:E; [|reflexivity].
  exfalso. apply H. apply contains_list.
  apply match_at_sound in E. destruct E as (w & -> & Hw).
  inversion Hw; subst. eauto.
Qed.

(** * The claims *)

(** C1.  [detect_commands] is not total: on every text that contains
    [/help] it raises where the specification promises a normal result.
    The loop body asks the match of the group-less pattern for [group(1)],
    which raises [IndexError]; the one way not to get that far is an index
    list of [/implement] with a run of more than 4300 digits, at which
    [int] raises [ValueError] before. *)
Theorem C1_detect_commands_raises_on_help (a b : string) :
  detect_commands (a ++ "/help" ++ b)%string = Raise IndexError \/
  (detect_commands (a ++ "/help" ++ b)%string = Raise ValueError /\
   long_digit_run (list_ascii_of_string (a ++ "/help" ++ b)%string)).
Proof.
  apply detect_commands_with_help, finditer_help_found.
  now exists a, b.
Qed.

(** C2.  On the text [/help], [detect_commands] raises [IndexError] instead
    of returning the one help command; the sibling
    [CommandProcessor._extract_commands] returns it. *)
Theorem C2_detect_help_raises :
  detect_commands "/help" = Raise IndexError /\
  CommandProcessor._extract_commands "/help" = Ok [("help", Arg None)].
Proof. split; reflexivity. Qed.

Lemma arg_text_nonempty a v :
  arg_text a v -> nonempty_arg (Some (string_of_list_ascii v)).
Proof.
  intros [Hne _]. eexists. split; [reflexivity|].
  now apply string_of_list_ascii_nonempty.
Qed.

(** C6.  In every sequence [detect_commands] returns, the target of each
    command that carries one (and the feature of [/add]) is a non-empty
    string. *)
Theorem C6_targets_nonempty (text : string) (cmds : list command) :
  detect_commands text = Ok cmds -> Forall targets_nonempty cmds.
Proof.
  intros H. apply Forall_forall. intros c Hc.
  destruct (detect_commands_occurrence _ _ _ H Hc); unfold targets_nonempty;
    simpl; eauto using arg_text_nonempty.
Qed.

Lemma C6_targets_nonempty_witness :
  detect_commands "/fix a.java and also /document b.java"
  = Ok [("fix", Arg (Some "a.java")); ("document", Arg (Some "b.java"))] /\
  Forall targets_nonempty
         [("fix", Arg (Some "a.java")); ("document", Arg (Some "b.java"))].
Proof.
  split; [reflexivity|].
  apply (C6_targets_nonempty "/fix a.java and also /document b.java").
  reflexivity.
Defined.

(** C9, as the code has it: the integers of an index selection are read
    from runs of digits without any check against zero, so they are
    non-negative. *)
Theorem C9_indices_nonnegative (text : string) (cmds : list command)
        (ns : list Z) :
  detect_commands text = Ok cmds -> In ("implement", Indices ns) cmds ->
  Forall (fun n => 0 <= n)%Z ns.
Proof.
  intros H Hc. pose proof (detect_commands_occurrence _ _ _ H Hc) as Hocc.
  inversion Hocc; subst. assumption.
Qed.

Lemma C9_indices_nonnegative_witness :
  detect_commands "/implement 1, 3, 5"
  = Ok [("implement", Indices [1; 3; 5]%Z)] /\
  Forall (fun n => 0 <= n)%Z [1; 3; 5]%Z.
Proof.
  split; [reflexivity|].
  apply (C9_indices_nonnegative "/implement 1, 3, 5"
           [("implement", Indices [1; 3; 5]%Z)]);
    [reflexivity|now left].
Defined.

(** C9 as stated fails: [/implement 0] selects the index zero. *)
Lemma C9_zero_index_counterexample :
  exists cmds ns,
    detect_commands "/implement 0" = Ok cmds /\
    In ("implement", Indices ns) cmds /\ In 0%Z ns.
Proof.
  exists [("implement", Indices [0%Z])], [0%Z].
  split; [reflexivity|]. split; now left.
Qed.

(** C7.  Two occurrences of a command with an argument give two commands,
    but a text with two [/help] gives none: [detect_commands] raises at the
    first of them, and [CommandProcessor._extract_commands] reports help
    once. *)
Theorem C7_help_twice_raises :
  detect_commands "/help and again /help" = Raise IndexError /\
  CommandProcessor._extract_commands "/help and again /help"
  = Ok [("help", Arg None)] /\
  detect_commands "/fix a.java /fix b.java"
  = Ok [("fix", Arg (Some "a.java")); ("fix", Arg (Some "b.java"))].
Proof. repeat split; reflexivity. Qed.

(** ** Order of the result *)

Lemma StronglySorted_app {A} (R : A -> A -> Prop) : forall l1 l2,
  StronglySorted R l1 -> StronglySorted R l2 ->
  (forall x y, In x l1 -> In y l2 -> R x y) ->
  StronglySorted R (l1 ++ l2).
Proof.
  induction l1 as [|a l1 IH]; simpl; intros l2 H1 H2 H; [assumption|].
  inversion H1 as [|? ? Hs Hf]; subst.
  constructor.
  - apply IH; auto.
  - apply Forall_app. split; [assumption|].
    apply Forall_forall. intros y Hy. apply H; auto.
Qed.

Lemma StronglySorted_map {A B} (R : A -> A -> Prop) (R' : B -> B -> Prop)
      (f : A -> B) :
  (forall x y, R x y -> R' (f x) (f y)) ->
  forall l, StronglySorted R l -> StronglySorted R' (map f l).
Proof.
  intros HR. induction 1 as [|a l Hs IH Hf]; simpl; constructor; auto.
  apply Forall_map. eapply Forall_impl; [|exact Hf]. intros b. apply HR.
Qed.

Lemma rank_at k p rest : forall pre,
  NoDup (map fst (pre ++ (k, p) :: rest)) ->
  rank (pre ++ (k, p) :: rest) k = length pre.
Proof.
  induction pre as [|[k0 p0] pre IH]; simpl; intros H.
  - now rewrite String.eqb_refl.
  - inversion H as [|? ? Hnot Hnd]; subst.
    destruct (String.eqb k k0) eqn:E.
    + apply String.eqb_eq in E. subst k0. exfalso. apply Hnot.
      rewrite map_app. apply in_or_app. right. now left.
    + f_equal. auto.
Qed.

Lemma entry_occs_sorted text : forall table pre,
  NoDup (map fst (pre ++ table)) ->
  StronglySorted
    (fun a b : occ =>
       rank (pre ++ table) (fst a) < rank (pre ++ table) (fst b) \/
       (fst a = fst b /\ m_start (snd a) < m_start (snd b)))
    (flat_map (entry_occs text) table).
Proof.
  induction table as [|[k p] table IH]; simpl; intros pre Hnd;
    [constructor|].
  apply StronglySorted_app.
  - unfold entry_occs. simpl.
    eapply StronglySorted_map;
      [|apply (finditer_from_sorted p (list_ascii_of_string text) 0 0)].
    intros a b Hab. right. split; [reflexivity|exact Hab].
  - specialize (IH (pre ++ [(k, p)])).
    rewrite <- app_assoc in IH. simpl in IH. auto.
  - intros x y Hx Hy. left.
    unfold entry_occs in Hx. simpl in Hx. apply in_map_iff in Hx.
    destruct Hx as (m & <- & _). simpl.
    apply in_flat_map in Hy. destruct Hy as ([k' p'] & Hin & Hy).
    unfold entry_occs in Hy. simpl in Hy. apply in_map_iff in Hy.
    destruct Hy as (m' & <- & _). simpl.
    rewrite (rank_at _ _ _ _ Hnd).
    apply in_split in Hin. destruct Hin as (l1 & l2 & ->).
    replace (pre ++ (k, p) :: l1 ++ (k', p') :: l2)
      with ((pre ++ (k, p) :: l1) ++ (k', p') :: l2) in *
      by (now rewrite <- app_assoc).
    rewrite (rank_at _ _ _ _ Hnd), length_app. simpl. lia.
Qed.

Lemma entry_occs_commands text : forall table css,
  Forall2 (fun e cs => entry_commands text e = Ok cs) table css ->
  Forall2 (fun (c : command) (o : occ) =>
             match_command (fst o) (snd o) = Ok c)
          (concat css) (flat_map (entry_occs text) table).
Proof.
  induction 1 as [|[k p] cs table css He HF IH]; simpl; [constructor|].
  apply Forall2_app; [|assumption].
  unfold entry_commands in He. simpl in He. apply traverse_Ok in He.
  unfold entry_occs. simpl. clear -He.
  induction He; simpl; constructor; auto.
Qed.

(** C3, as the code has it: the result is ordered by kind first, in the
    order of the table (fix, improve, document, add, analyze, explain,
    implement, refactor, test, help), and by the offset of the match within
    one kind.  Each command is the command of an occurrence, and the
    occurrences are sorted by [reported_before]. *)
Theorem C3_order_by_kind_then_offset (text : string) (cmds : list command) :
  detect_commands text = Ok cmds ->
  exists occs : list occ,
    Forall2 (fun c o => match_command (fst o) (snd o) = Ok c) cmds occs /\
    Forall (fun o => exists p, In (fst o, p) COMMAND_PATTERNS /\
                               In (snd o) (finditer p text)) occs /\
    StronglySorted reported_before occs.
Proof.
  intros H. apply detect_commands_Ok in H. destruct H as (css & HF & ->).
  exists (flat_map (entry_occs text) COMMAND_PATTERNS).
  split; [now apply entry_occs_commands|]. split.
  - apply Forall_forall. intros o Ho. apply in_flat_map in Ho.
    destruct Ho as ([k p] & Hin & Ho). unfold entry_occs in Ho.
    simpl in Ho. apply in_map_iff in Ho. destruct Ho as (m & <- & Hm).
    exists p. split; assumption.
  - apply (entry_occs_sorted text COMMAND_PATTERNS []).
    simpl. repeat constructor; simpl; intuition discriminate.
Qed.

Lemma C3_order_by_kind_then_offset_witness :
  detect_commands "/fix a.java and also /document b.java"
  = Ok [("fix", Arg (Some "a.java")); ("document", Arg (Some "b.java"))] /\
  exists occs : list occ,
    Forall2 (fun c o => match_command (fst o) (snd o) = Ok c)
            [("fix", Arg (Some "a.java")); ("document", Arg (Some "b.java"))]
            occs /\
    Forall (fun o => exists p, In (fst o, p) COMMAND_PATTERNS /\
                 In (snd o)
                    (finditer p "/fix a.java and also /document b.java"))
           occs /\
    StronglySorted reported_before occs.
Proof.
  split; [reflexivity|].
  apply (C3_order_by_kind_then_offset
           "/fix a.java and also /document b.java").
  reflexivity.
Defined.

(** C3 as stated fails: with the two commands in the other textual order
    the result is the same list, fix first, and not the reversed one. *)
Lemma C3_textual_order_counterexample :
  detect_commands "/document b.java and also /fix a.java"
  = Ok [("fix", Arg (Some "a.java")); ("document", Arg (Some "b.java"))] /\
  detect_commands "/document b.java and also /fix a.java"
  <> Ok [("document", Arg (Some "b.java")); ("fix", Arg (Some "a.java"))].
Proof. split; [reflexivity|discriminate]. Qed.

(** ** Keywords and arguments as they stand in the text *)

Lemma text_of_list text s :
  list_ascii_of_string text = s -> text = string_of_list_ascii s.
Proof. intros <-. now rewrite string_of_list_ascii_of_string. Qed.








(** ** [/implement] *)

(** C4, as the code has it: an implement command is produced only where
    the keyword is followed by white space and then either the word [all]
    or a non-empty run of digits, commas and white space, from which the
    digit-only entries are read; a run without such an entry gives the
    empty index list.  The three inputs of the claim evaluate as it says. *)
Theorem C4_implement_selection :
  (forall (text : string) (cmds : list command) (sel : cmd_args),
      detect_commands text = Ok cmds -> In ("implement", sel) cmds ->
      exists pre ws rest post,
        (text = pre ++ "/implement" ++ ws ++ rest ++ post)%string /\
        ws <> "" /\ forallb Py.isspace (list_ascii_of_string ws) = true /\
        ((sel = All /\ rest = "all") \/
         (exists ns, sel = Indices ns /\ rest <> "" /\
            forallb cls_index (list_ascii_of_string rest) = true /\
            parse_indices (Py.split Py.comma (list_ascii_of_string rest))
            = Ok ns))) /\
  detect_commands "/implement banana" = Ok [] /\
  detect_commands "/implement 1, 3, 5"
  = Ok [("implement", Indices [1; 3; 5]%Z)] /\
  detect_commands "/implement all" = Ok [("implement", All)].
Proof.
  split; [|repeat split; reflexivity].
  intros text cmds sel H Hc.
  pose proof (detect_commands_occurrence _ _ _ H Hc) as Hocc.
  inversion Hocc as [k pre ws a post v Hk Hs Hne Hsp Hv|
                     |pre ws post Hs Hne Hsp
                     |pre ws a post ns Hs Hne Hsp Ha Hall Hns Hpos]; subst.
  - exfalso. unfold target_kinds in Hk. simpl in Hk.
    repeat (destruct Hk as [Hk|Hk]; [discriminate|]). contradiction.
  - exists (string_of_list_ascii pre), (string_of_list_ascii ws), "all",
      (string_of_list_ascii post).
    apply text_of_list in Hs. rewrite Hs.
    rewrite list_ascii_of_string_of_list_ascii.
    split; [|split; [now apply string_of_list_ascii_nonempty|
                     split; [exact Hsp|left; split; reflexivity]]].
    rewrite !string_of_list_ascii_app, !string_of_list_ascii_of_string.
    reflexivity.
  - exists (string_of_list_ascii pre), (string_of_list_ascii ws),
      (string_of_list_ascii a), (string_of_list_ascii post).
    apply text_of_list in Hs. rewrite Hs.
    rewrite !list_ascii_of_string_of_list_ascii.
    split; [|split; [now apply string_of_list_ascii_nonempty|
                     split; [exact Hsp|right]]].
    + rewrite !string_of_list_ascii_app, !string_of_list_ascii_of_string.
      reflexivity.
    + exists ns. split; [reflexivity|].
      split; [now apply string_of_list_ascii_nonempty|].
      split; assumption.
Qed.

Lemma C4_implement_selection_witness :
  detect_commands "/implement 1, 3, 5"
  = Ok [("implement", Indices [1; 3; 5]%Z)] /\
  exists pre ws rest post,
    ("/implement 1, 3, 5" = pre ++ "/implement" ++ ws ++ rest ++ post)%string /\
    ws <> "" /\ forallb Py.isspace (list_ascii_of_string ws) = true /\
    ((Indices [1; 3; 5]%Z = All /\ rest = "all") \/
     (exists ns, Indices [1; 3; 5]%Z = Indices ns /\ rest <> "" /\
        forallb cls_index (list_ascii_of_string rest) = true /\
        parse_indices (Py.split Py.comma (list_ascii_of_string rest))
        = Ok ns)).
Proof.
  split; [reflexivity|].
  apply (proj1 C4_implement_selection "/implement 1, 3, 5"
           [("implement", Indices [1; 3; 5]%Z)]);
    [reflexivity|now left].
Defined.

(** C4 as stated fails: after [/implement], a comma, or a second blank
    before any other word, is neither [all] nor a digit, and a command with
    the empty index list is produced. *)
Lemma C4_no_digit_counterexample :
  detect_commands "/implement ," = Ok [("implement", Indices [])] /\
  detect_commands "/implement  banana" = Ok [("implement", Indices [])].
Proof. split; reflexivity. Qed.

(** ** Runs of a character class *)

Lemma plus_set_stops {A} cls rest g (k : cont A) :
  stops cls rest -> plus_set cls rest g k = None.
Proof. destruct rest as [|c rest]; simpl; [reflexivity|now intros ->]. Qed.

(** The greedy repetition takes a whole run when what follows accepts. *)
Lemma plus_set_run {A} cls rest g (k : cont A) x : forall w,
  w <> [] -> forallb cls w = true -> stops cls rest ->
  k rest g = Some x -> plus_set cls (w ++ rest) g k = Some x.
Proof.
  induction w as [|c w IH]; [congruence|].
  intros _ Hall Hstop Hk. simpl in *.
  apply andb_true_iff in Hall. destruct Hall as [-> Hall].
  destruct w as [|c' w].
  - simpl. now rewrite (plus_set_stops _ _ _ _ Hstop).
  - rewrite IH; auto. discriminate.
Qed.

Lemma run_unique (cls : ascii -> bool) : forall w1 w2 r1 r2,
  forallb cls w1 = true -> forallb cls w2 = true ->
  stops cls r1 -> stops cls r2 -> w1 ++ r1 = w2 ++ r2 ->
  w1 = w2 /\ r1 = r2.
Proof.
  induction w1 as [|c w1 IH]; intros [|c2 w2] r1 r2 H1 H2 S1 S2 E;
    simpl in *.
  - auto.
  - subst r1. simpl in S1. apply andb_true_iff in H2. destruct H2. congruence.
  - subst r2. simpl in S2. apply andb_true_iff in H1. destruct H1. congruence.
  - inversion E; subst.
    apply andb_true_iff in H1. apply andb_true_iff in H2.
    destruct H1 as [_ H1]. destruct H2 as [_ H2].
    destruct (IH _ _ _ H1 H2 S1 S2 H3) as [-> ->]. auto.
Qed.

Lemma dquote_not_space : Py.isspace Py.dquote = false.
Proof. reflexivity. Qed.

Lemma bare_not_space c : cls_bare c = true -> Py.isspace c = false.
Proof.
  unfold cls_bare. intros H. apply andb_true_iff in H.
  destruct H as [H _]. now apply negb_true_iff in H.
Qed.

Lemma bare_not_quote c : cls_bare c = true -> Ascii.eqb Py.dquote c = false.
Proof.
  unfold cls_bare. intros H. apply andb_true_iff in H.
  destruct H as [_ H]. apply negb_true_iff in H.
  now rewrite Ascii.eqb_sym.
Qed.

(** ** Empty quotes *)

(** After white space, two double quotes in a row are not the start of
    an argument. *)
Lemma empty_quotes_no_arg i ws ws' a g g' rest rest' :
  forallb Py.isspace ws = true -> forallb Py.isspace ws' = true ->
  arg_match i a g g' ->
  ws ++ Py.dquote :: Py.dquote :: rest <> ws' ++ a ++ rest'.
Proof.
  intros Hws Hsp Ha Hs.
  assert (Hstop : stops Py.isspace (a ++ rest')).
  { destruct Ha as [body -> _ _ _|Hb Hall _].
    - simpl. apply dquote_not_space.
    - destruct a as [|c a]; [congruence|]. simpl in *.
      apply andb_true_iff in Hall. now apply bare_not_space. }
  destruct (run_unique Py.isspace ws ws' (Py.dquote :: Py.dquote :: rest)
              (a ++ rest') Hws Hsp dquote_not_space Hstop Hs) as [_ Hq].
  destruct Ha as [body -> Hb Hall _|Hb Hall _].
  - destruct body as [|c body]; [congruence|]. simpl in *.
    inversion Hq; subst. discriminate.
  - destruct a as [|c a]; [congruence|]. simpl in *.
    inversion Hq; subst. discriminate.
Qed.

(** C5, as the code has it: both alternatives of the argument need at
    least one character, the quoted one between the quotes and the bare one
    before any quote.  So the keyword of a one-target command, or [/add],
    followed by white space and two double quotes is no match of its
    pattern, whatever follows; each of these keywords with [""] after it
    gives no command; and no command [detect_commands] returns has the
    empty string as its target or as its feature. *)
Theorem C5_empty_quotes_not_matched :
  (forall (kw : string) (ws rest : list ascii),
      forallb Py.isspace ws = true ->
      match_at (target_pattern kw)
               (list_ascii_of_string kw ++ ws ++
                  Py.dquote :: Py.dquote :: rest) = None) /\
  (forall (ws rest : list ascii),
      forallb Py.isspace ws = true ->
      match_at add_pattern
               (list_ascii_of_string "/add" ++ ws ++
                  Py.dquote :: Py.dquote :: rest) = None) /\
  Forall (fun k =>
            detect_commands (String "/" k ++ " " ++ dq ++ dq)%string = Ok [])
         ("add" :: target_kinds) /\
  (forall (text : string) (cmds : list command) (c : command),
      detect_commands text = Ok cmds -> In c cmds ->
      snd c <> Arg (Some "") /\
      (forall target, snd c <> AddArgs (Some "") target) /\
      (forall feature, snd c <> AddArgs feature (Some ""))).
Proof.
  split; [|split; [|split; [repeat constructor|]]].
  - intros kw ws rest Hws.
    destruct (match_at _ _) as [[g rest']|] eqn:E; [exfalso|reflexivity].
    apply match_at_sound in E. destruct E as (w & Hs & Hw).
    apply target_pattern_inv in Hw.
    destruct Hw as (ws' & a & -> & Hne & Hsp & Ha).
    rewrite <- !app_assoc in Hs. apply app_inv_head in Hs.
    exact (empty_quotes_no_arg _ _ _ _ _ _ _ _ Hws Hsp Ha Hs).
  - intros ws rest Hws.
    destruct (match_at _ _) as [[g rest']|] eqn:E; [exfalso|reflexivity].
    apply match_at_sound in E. destruct E as (w & Hs & Hw).
    apply add_pattern_inv in Hw.
    destruct Hw as (ws1 & a1 & ws2 & ws3 & a2 & g1 & -> & Hne & Hsp & H1 & _).
    rewrite <- !app_assoc in Hs. apply app_inv_head in Hs.
    exact (empty_quotes_no_arg _ _ _ _ _ _ _ _ Hws Hsp H1 Hs).
  - intros text cmds c H Hc.
    destruct (detect_commands_occurrence _ _ _ H Hc)
      as [k pre ws a post v _ _ _ _ [Hv _]
         |pre ws a1 mid a2 post v1 v2 _ [Hv1 _] [Hv2 _]| |];
      cbn [snd]; repeat split; try discriminate;
      intros; intros E; inversion E;
      match goal with
      | Hn : ?v <> [], He : string_of_list_ascii ?v = _ |- _ =>
          exact (string_of_list_ascii_nonempty _ Hn He)
      end.
Qed.

Lemma C5_empty_quotes_not_matched_witness :
  forallb Py.isspace [" "%char] = true /\
  match_at (target_pattern "/fix")
           (list_ascii_of_string "/fix" ++ [" "%char] ++
              Py.dquote :: Py.dquote :: []) = None.
Proof.
  split; [reflexivity|].
  apply (proj1 C5_empty_quotes_not_matched "/fix" [" "%char] []).
  reflexivity.
Defined.

(** C5 as stated fails: on [/fix ""] no command is returned, where the
    claim has a command with the empty target. *)
Lemma C5_empty_target_counterexample :
  detect_commands ("/fix " ++ dq ++ dq)%string = Ok [] /\
  detect_commands ("/fix " ++ dq ++ dq)%string <> Ok [("fix", Arg (Some ""))].
Proof. split; [reflexivity|discriminate]. Qed.

(** ** Command strings built from the grammar table *)

Lemma valid_arg_nonempty a :
  valid_arg a = true -> list_ascii_of_string (arg_value a) <> [].
Proof.
  destruct a as [v|v]; simpl; intros H; apply andb_true_iff in H;
    destruct H as [H _]; destruct v; simpl in *; congruence.
Qed.

Lemma render_arg_not_space a rest :
  valid_arg a = true ->
  stops Py.isspace (list_ascii_of_string (render_arg a) ++ rest).
Proof.
  destruct a as [v|v]; simpl; intros H; [|reflexivity].
  apply andb_true_iff in H. destruct H as [Hne Hall].
  destruct v as [|c v]; [discriminate|]. simpl in *.
  apply andb_true_iff in Hall. now apply bare_not_space.
Qed.

(** The argument pattern on a rendered argument: the first attempt takes
    the whole argument and hands its value to the continuation. *)
Lemma rmatch_arg {A} i a rest g (k : cont A) x :
  valid_arg a = true -> arg_ends a rest ->
  k rest ((arg_group i a, list_ascii_of_string (arg_value a)) :: g) = Some x ->
  rmatch (arg_pattern i) (list_ascii_of_string (render_arg a) ++ rest) g k
  = Some x.
Proof.
  intros Hv Hend Hk. pose proof (valid_arg_nonempty _ Hv) as Hne.
  unfold arg_pattern. cbn [rmatch].
  destruct a as [v|v]; cbn [valid_arg arg_value render_arg arg_group
                              arg_ends] in *;
    apply andb_true_iff in Hv; destruct Hv as [_ Hall].
  - assert (Hfirst :
      strip_prefix [Py.dquote] (list_ascii_of_string v ++ rest) = None).
    { destruct (list_ascii_of_string v) as [|c l]; [congruence|].
      cbn [forallb] in Hall. apply andb_true_iff in Hall.
      destruct Hall as [Hc _]. cbn [app strip_prefix].
      now rewrite (bare_not_quote _ Hc). }
    rewrite Hfirst. apply plus_set_run; auto.
    now rewrite firstn_consumed.
  - unfold dq. rewrite list_ascii_of_string_app.
    cbn [list_ascii_of_string String.append app strip_prefix].
    rewrite list_ascii_of_string_app, <- app_assoc.
    cbn [list_ascii_of_string String.append app strip_prefix].
    rewrite Ascii.eqb_refl.
    rewrite (plus_set_run cls_not_quote (Py.dquote :: rest) g _ x);
      [reflexivity|exact Hne|exact Hall|reflexivity|].
    cbn [rmatch strip_prefix]. rewrite Ascii.eqb_refl.
    now rewrite firstn_consumed.
Qed.

Lemma blank_run ws :
  blank ws = true ->
  list_ascii_of_string ws <> [] /\
  forallb Py.isspace (list_ascii_of_string ws) = true.
Proof.
  unfold blank. intros H. apply andb_true_iff in H. destruct H as [Hne Hsp].
  split; [|exact Hsp]. destruct ws; simpl in *; congruence.
Qed.

(** White space ends an argument. *)
Lemma arg_ends_space a ws rest :
  ws <> [] -> forallb Py.isspace ws = true -> arg_ends a (ws ++ rest).
Proof.
  intros Hne Hsp. destruct a; simpl; [|exact I].
  destruct ws as [|c ws]; [congruence|]. simpl in *.
  apply andb_true_iff in Hsp. destruct Hsp as [Hc _].
  unfold cls_bare. now rewrite Hc.
Qed.

Lemma match_at_target_in_text kw ws a rest :
  valid_arg a = true -> ws <> [] -> forallb Py.isspace ws = true ->
  arg_ends a rest ->
  match_at (target_pattern kw)
           (list_ascii_of_string kw ++ ws ++
              list_ascii_of_string (render_arg a) ++ rest)
  = Some ([(arg_group 1 a, list_ascii_of_string (arg_value a))], rest).
Proof.
  intros Hv Hne Hsp Hend. unfold match_at, target_pattern, lit.
  cbn [rmatch]. rewrite strip_prefix_app.
  apply plus_set_run;
    [exact Hne|exact Hsp|now apply render_arg_not_space|].
  now apply rmatch_arg.
Qed.

Lemma match_at_add_in_text ws1 feature ws2 ws3 target rest :
  valid_arg feature = true -> valid_arg target = true ->
  ws1 <> [] -> forallb Py.isspace ws1 = true ->
  ws2 <> [] -> forallb Py.isspace ws2 = true ->
  ws3 <> [] -> forallb Py.isspace ws3 = true ->
  arg_ends target rest ->
  match_at add_pattern
           (list_ascii_of_string "/add" ++ ws1 ++
              list_ascii_of_string (render_arg feature) ++ ws2 ++
              list_ascii_of_string "to" ++ ws3 ++
              list_ascii_of_string (render_arg target) ++ rest)
  = Some ([(arg_group 3 target, list_ascii_of_string (arg_value target));
           (arg_group 1 feature, list_ascii_of_string (arg_value feature))],
          rest).
Proof.
  intros Hf Ht Hn1 Hs1 Hn2 Hs2 Hn3 Hs3 Hend.
  unfold match_at, add_pattern, lit. cbn [rmatch].
  rewrite strip_prefix_app.
  apply plus_set_run;
    [exact Hn1|exact Hs1|now apply render_arg_not_space|].
  apply rmatch_arg; [exact Hf|now apply arg_ends_space|].
  apply plus_set_run; [exact Hn2|exact Hs2|reflexivity|].
  rewrite strip_prefix_app.
  apply plus_set_run;
    [exact Hn3|exact Hs3|now apply render_arg_not_space|].
  now apply rmatch_arg.
Qed.

Lemma match_at_implement_all ws rest :
  ws <> [] -> forallb Py.isspace ws = true ->
  match_at implement_pattern
           (list_ascii_of_string "/implement" ++ ws ++
              list_ascii_of_string "all" ++ rest)
  = Some ([], rest).
Proof.
  intros Hne Hsp. unfold match_at, implement_pattern, lit. cbn [rmatch].
  rewrite strip_prefix_app.
  apply plus_set_run; [exact Hne|exact Hsp|reflexivity|].
  now rewrite strip_prefix_app.
Qed.

Lemma digit_not_space c : Py.is_ascii_digit c = true -> Py.isspace c = false.
Proof. destruct c as [[] [] [] [] [] [] [] []]; vm_compute; congruence. Qed.

Lemma digit_not_comma c :
  Py.is_ascii_digit c = true -> Ascii.eqb c Py.comma = false.
Proof. destruct c as [[] [] [] [] [] [] [] []]; vm_compute; congruence. Qed.

Lemma space_not_comma c :
  Py.isspace c = true -> Ascii.eqb c Py.comma = false.
Proof. destruct c as [[] [] [] [] [] [] [] []]; vm_compute; congruence. Qed.

(** An index list that starts with a digit is taken whole, up to the
    first character that is no digit, comma or white space. *)
Lemma match_at_implement_indices ws c body rest :
  ws <> [] -> forallb Py.isspace ws = true ->
  Py.is_ascii_digit c = true -> forallb cls_index (c :: body) = true ->
  stops cls_index rest ->
  match_at implement_pattern
           (list_ascii_of_string "/implement" ++ ws ++ (c :: body) ++ rest)
  = Some ([(1, c :: body)], rest).
Proof.
  intros Hne Hsp Hc Hall Hst.
  unfold match_at, implement_pattern, lit. cbn [rmatch].
  rewrite strip_prefix_app.
  apply plus_set_run; [exact Hne|exact Hsp| |].
  - simpl. now apply digit_not_space.
  - assert (Hno : strip_prefix (list_ascii_of_string "all")
                    ((c :: body) ++ rest) = None).
    { cbn [list_ascii_of_string strip_prefix app].
      destruct (Ascii.eqb "a" c) eqn:E; [|reflexivity].
      apply Ascii.eqb_eq in E. subst c. discriminate. }
    rewrite Hno. apply plus_set_run; [discriminate|exact Hall|exact Hst|].
    now rewrite firstn_consumed.
Qed.

(** ** Decimal numerals *)

Lemma string_of_uint_digits d :
  forallb Py.is_ascii_digit
          (list_ascii_of_string (NilEmpty.string_of_uint d)) = true.
Proof. induction d; simpl; auto. Qed.

Lemma str_digits n : forallb Py.is_ascii_digit (Py.str n) = true.
Proof. apply string_of_uint_digits. Qed.

Lemma str_nonempty p : Py.str (Npos p) <> [].
Proof.
  unfold Py.str. simpl.
  pose proof (DecimalPos.Unsigned.to_uint_nonnil p) as H.
  destruct (Pos.to_uint p); simpl; congruence.
Qed.

(** [int(str(n))] is [n], as long as [n] has no more digits than [int]
    accepts. *)
Lemma int_str p :
  length (Py.str (Npos p)) <= Py.int_max_str_digits ->
  Py.int (Py.str (Npos p)) = Ok (Z.pos p).
Proof.
  intros Hl. pose proof (str_nonempty p) as Hne.
  pose proof (str_digits (Npos p)) as Hd.
  apply Nat.ltb_ge in Hl. unfold Py.int. rewrite Hd, Hl.
  destruct (Py.str (Npos p)) as [|c s] eqn:E; [congruence|].
  rewrite <- E. unfold Py.str.
  rewrite string_of_list_ascii_of_string, NilEmpty.usu.
  now rewrite DecimalN.Unsigned.of_to.
Qed.

Lemma digit_isdigit c :
  Py.is_ascii_digit c = true -> Py.isdigit_char c = true.
Proof. unfold Py.isdigit_char. now intros ->. Qed.

Lemma digits_stop d :
  forallb Py.is_ascii_digit d = true -> stops Py.isspace d.
Proof.
  destruct d as [|c d]; simpl; [trivial|]. intros H.
  apply andb_true_iff in H. now apply digit_not_space.
Qed.

Lemma lstrip_stops s : stops Py.isspace s -> Py.lstrip s = s.
Proof. destruct s as [|c s]; simpl; [reflexivity|now intros ->]. Qed.

Lemma lstrip_pad pad s :
  forallb Py.isspace pad = true -> Py.lstrip (pad ++ s) = Py.lstrip s.
Proof.
  induction pad as [|c pad IH]; simpl; [reflexivity|]. intros H.
  apply andb_true_iff in H. destruct H as [-> H]. auto.
Qed.

(** Stripping a digit run with white space around it leaves the digits. *)
Lemma strip_digits_between pad d trail :
  forallb Py.isspace pad = true -> forallb Py.isspace trail = true ->
  d <> [] -> forallb Py.is_ascii_digit d = true ->
  Py.strip (pad ++ d ++ trail) = d.
Proof.
  intros Hp Ht Hne Hd. unfold Py.strip, Py.rstrip.
  rewrite (lstrip_pad _ _ Hp).
  assert (Hstop : stops Py.isspace (d ++ trail)).
  { destruct d as [|c d]; [congruence|]. simpl in *.
    apply andb_true_iff in Hd. now apply digit_not_space. }
  rewrite (lstrip_stops _ Hstop), rev_app_distr.
  rewrite lstrip_pad by now apply forallb_rev.
  rewrite lstrip_stops; [apply rev_involutive|].
  apply digits_stop. now apply forallb_rev.
Qed.

Lemma split_run sep w rest :
  forallb (fun c => negb (Ascii.eqb c sep)) w = true ->
  Py.split sep (w ++ sep :: rest) = w :: Py.split sep rest.
Proof.
  induction w as [|c w IH]; simpl; intros H.
  - now rewrite Ascii.eqb_refl.
  - apply andb_true_iff in H. destruct H as [Hc H].
    apply negb_true_iff in Hc. rewrite Hc, IH; auto.
Qed.

Lemma split_whole sep w :
  forallb (fun c => negb (Ascii.eqb c sep)) w = true ->
  Py.split sep w = [w].
Proof.
  induction w as [|c w IH]; simpl; intros H; [reflexivity|].
  apply andb_true_iff in H. destruct H as [Hc H].
  apply negb_true_iff in Hc. rewrite Hc, IH; auto.
Qed.

Lemma digits_between_no_comma pad d trail :
  forallb Py.isspace pad = true -> forallb Py.isspace trail = true ->
  forallb Py.is_ascii_digit d = true ->
  forallb (fun c => negb (Ascii.eqb c Py.comma)) (pad ++ d ++ trail) = true.
Proof.
  intros Hp Ht Hd. rewrite !forallb_app.
  repeat (apply andb_true_iff; split);
    apply forallb_forall; intros c Hc; apply negb_true_iff.
  - rewrite forallb_forall in Hp. apply space_not_comma; auto.
  - rewrite forallb_forall in Hd. apply digit_not_comma; auto.
  - rewrite forallb_forall in Ht. apply space_not_comma; auto.
Qed.

Lemma isdigit_str p : Py.isdigit (Py.str (Npos p)) = true.
Proof.
  pose proof (str_nonempty p) as Hne. pose proof (str_digits (Npos p)) as Hd.
  destruct (Py.str (Npos p)) as [|c s]; [congruence|].
  unfold Py.isdigit. apply forallb_forall. intros x Hx.
  rewrite forallb_forall in Hd. apply digit_isdigit; auto.
Qed.

Lemma list_of_decimal p : list_ascii_of_string (decimal p) = Py.str (Npos p).
Proof. apply list_ascii_of_string_of_list_ascii. Qed.

(** ** Index lists *)

Lemma list_of_entry e :
  list_ascii_of_string (render_entry e)
  = list_ascii_of_string (lead e) ++ Py.str (Npos (value e)) ++
    list_ascii_of_string (trail e).
Proof.
  unfold render_entry.
  now rewrite !list_ascii_of_string_app, list_of_decimal.
Qed.

Lemma valid_entry_pads e :
  valid_entry e = true ->
  forallb Py.isspace (list_ascii_of_string (lead e)) = true /\
  forallb Py.isspace (list_ascii_of_string (trail e)) = true.
Proof. unfold valid_entry. intros H. now apply andb_true_iff in H. Qed.

(** One entry of an index list: the piece up to the comma is read as the
    integer of the entry. *)
Lemma parse_entry e rest :
  valid_entry e = true ->
  length (Py.str (Npos (value e))) <= Py.int_max_str_digits ->
  parse_indices (list_ascii_of_string (render_entry e) :: rest)
  = (ns <- parse_indices rest ;; Ok (Z.pos (value e) :: ns)).
Proof.
  intros Hv Hl. destruct (valid_entry_pads _ Hv) as [Hp Ht].
  cbn [parse_indices]. rewrite list_of_entry.
  rewrite (strip_digits_between _ _ _ Hp Ht (str_nonempty _) (str_digits _)).
  now rewrite isdigit_str, (int_str _ Hl).
Qed.

Lemma entry_no_comma e :
  valid_entry e = true ->
  forallb (fun c => negb (Ascii.eqb c Py.comma))
          (list_ascii_of_string (render_entry e)) = true.
Proof.
  intros Hv. destruct (valid_entry_pads _ Hv) as [Hp Ht].
  rewrite list_of_entry. apply digits_between_no_comma; auto using str_digits.
Qed.

Lemma entry_digit_run e a b :
  digit_run (Py.str (Npos (value e)))
            (a ++ list_ascii_of_string (render_entry e) ++ b).
Proof.
  split; [apply str_digits|]. rewrite list_of_entry.
  exists (a ++ list_ascii_of_string (lead e)),
    (list_ascii_of_string (trail e) ++ b).
  now rewrite <- !app_assoc.
Qed.

Lemma list_of_join e e' es :
  list_ascii_of_string (join_entries e (e' :: es))
  = list_ascii_of_string (render_entry e) ++
    Py.comma :: list_ascii_of_string (join_entries e' es).
Proof.
  cbn [join_entries]. now rewrite list_ascii_of_string_app.
Qed.

(** The comprehension reads a rendered index list back. *)
Lemma parse_indices_entries : forall es e,
  forallb valid_entry (e :: es) = true ->
  short_digit_runs (list_ascii_of_string (join_entries e es)) ->
  parse_indices (Py.split Py.comma (list_ascii_of_string (join_entries e es)))
  = Ok (entry_values (e :: es)).
Proof.
  induction es as [|e' es IH]; intros e Hv Hs;
    cbn [forallb] in Hv; apply andb_true_iff in Hv; destruct Hv as [He Hv].
  - cbn [join_entries] in *. rewrite (split_whole _ _ (entry_no_comma _ He)).
    rewrite parse_entry; [reflexivity|exact He|].
    apply Hs. rewrite <- (app_nil_r (list_ascii_of_string _)).
    apply (entry_digit_run e [] []).
  - rewrite list_of_join in *.
    rewrite (split_run _ _ _ (entry_no_comma _ He)).
    rewrite parse_entry; [|exact He|].
    + rewrite IH; [reflexivity|exact Hv|].
      eapply short_digit_runs_infix; [exact Hs|].
      exists (list_ascii_of_string (render_entry e) ++ [Py.comma]), [].
      now rewrite app_nil_r, <- app_assoc.
    + apply Hs. apply (entry_digit_run e []).
Qed.

Lemma entry_class e :
  valid_entry e = true ->
  forallb cls_index (list_ascii_of_string (render_entry e)) = true.
Proof.
  intros Hv. destruct (valid_entry_pads _ Hv) as [Hp Ht].
  rewrite list_of_entry, !forallb_app.
  repeat (apply andb_true_iff; split);
    apply forallb_forall; intros c Hc; unfold cls_index.
  - rewrite forallb_forall in Hp. rewrite (Hp c Hc). apply orb_true_r.
  - pose proof (str_digits (Npos (value e))) as Hd.
    rewrite forallb_forall in Hd. now rewrite (Hd c Hc).
  - rewrite forallb_forall in Ht. rewrite (Ht c Hc). apply orb_true_r.
Qed.

Lemma join_entries_class : forall es e,
  forallb valid_entry (e :: es) = true ->
  forallb cls_index (list_ascii_of_string (join_entries e es)) = true.
Proof.
  induction es as [|e' es IH]; intros e Hv;
    cbn [forallb] in Hv; apply andb_true_iff in Hv; destruct Hv as [He Hv].
  - now apply entry_class.
  - rewrite list_of_join, forallb_app, (entry_class _ He).
    cbn [forallb andb]. rewrite IH by exact Hv. reflexivity.
Qed.

(** An index list is the white space in front of its first integer and
    the rest, which starts with a digit. *)
Lemma join_entries_lead e es :
  exists c body,
    list_ascii_of_string (join_entries e es)
    = list_ascii_of_string (lead e) ++ c :: body /\
    Py.is_ascii_digit c = true /\
    c :: body
    = list_ascii_of_string (join_entries (Entry "" (value e) (trail e)) es).
Proof.
  pose proof (str_nonempty (value e)) as Hne.
  pose proof (str_digits (Npos (value e))) as Hd.
  destruct (Py.str (Npos (value e))) as [|c d] eqn:E; [congruence|].
  cbn [forallb] in Hd. apply andb_true_iff in Hd. destruct Hd as [Hc _].
  destruct es as [|e' es].
  - exists c, (d ++ list_ascii_of_string (trail e)).
    cbn [join_entries]. rewrite !list_of_entry. cbn [lead value trail].
    rewrite E. cbn [list_ascii_of_string app]. auto.
  - exists c, (d ++ list_ascii_of_string (trail e) ++
               Py.comma :: list_ascii_of_string (join_entries e' es)).
    rewrite !list_of_join, !list_of_entry. cbn [lead value trail].
    rewrite E. cbn [list_ascii_of_string app]. rewrite <- !app_assoc.
    cbn [app]. rewrite <- !app_assoc. auto.
Qed.

(** The match of the implement pattern on a rendered index list, and the
    command the loop body makes of it. *)
Lemma implement_entries ws e es rest :
  ws <> [] -> forallb Py.isspace ws = true ->
  forallb valid_entry (e :: es) = true -> stops cls_index rest ->
  short_digit_runs (list_ascii_of_string (join_entries e es)) ->
  exists found,
    match_at implement_pattern
             (list_ascii_of_string "/implement" ++ ws ++
                list_ascii_of_string (join_entries e es) ++ rest)
    = Some (found, rest) /\
    forall pos s,
      match_command "implement"
                    (mk_match implement_pattern pos s (found, rest))
      = Ok ("implement", Indices (entry_values (e :: es))).
Proof.
  intros Hne Hsp Hv Hst Hs.
  destruct (join_entries_lead e es) as (c & body & Hj & Hc & Hb).
  assert (Hv' : forallb valid_entry (Entry "" (value e) (trail e) :: es)
                = true).
  { cbn [forallb] in *. apply andb_true_iff in Hv. destruct Hv as [He Hv].
    rewrite Hv. destruct (valid_entry_pads _ He) as [_ Ht].
    unfold valid_entry. cbn [lead trail list_ascii_of_string forallb].
    now rewrite Ht. }
  destruct (valid_entry_pads e) as [Hl _].
  { cbn [forallb] in Hv. apply andb_true_iff in Hv. tauto. }
  exists [(1, c :: body)]. split.
  - rewrite Hj, <- !app_assoc, (app_assoc ws).
    apply match_at_implement_indices; auto.
    + destruct ws; [congruence|discriminate].
    + rewrite forallb_app, Hsp. exact Hl.
    + rewrite Hb. now apply join_entries_class.
  - intros pos s. unfold match_command, group, mk_match.
    cbn -[parse_indices Py.split Py.truthy Py.comma join_entries].
    cbn [Py.truthy]. rewrite list_ascii_of_string_of_list_ascii, Hb.
    rewrite parse_indices_entries; [reflexivity|exact Hv'|].
    rewrite <- Hb. eapply short_digit_runs_infix; [exact Hs|].
    exists (list_ascii_of_string (lead e)), []. now rewrite app_nil_r.
Qed.

(** ** The round trip *)

Lemma target_in_table k :
  In k target_kinds ->
  In (k, target_pattern (String "/" k)) COMMAND_PATTERNS.
Proof.
  unfold target_kinds. simpl. intros H.
  repeat (destruct H as [<-|H]; [simpl; tauto|]). contradiction.
Qed.

Lemma existsb_target_kinds k :
  existsb (String.eqb k) target_kinds = true -> In k target_kinds.
Proof.
  intros H. apply existsb_exists in H. destruct H as (k' & Hin & E).
  apply String.eqb_eq in E. now subst.
Qed.

(** A match at the head of a text that has no [/help] and no over-long
    run of digits puts its command into the result. *)
Lemma detect_commands_head text k p found c :
  In (k, p) COMMAND_PATTERNS -> text <> "" ->
  match_at p (list_ascii_of_string text) = Some found ->
  match_command k (mk_match p 0 (list_ascii_of_string text) found) = Ok c ->
  ~ contains "/help" text ->
  short_digit_runs (list_ascii_of_string text) ->
  exists cmds, detect_commands text = Ok cmds /\ In c cmds.
Proof.
  intros Hin Hne Hm Hc Hh Hs.
  destruct (detect_commands_without_help text (finditer_help_none _ Hh) Hs)
    as (cmds & Hd).
  exists cmds. split; [exact Hd|].
  apply (detect_commands_In _ _ c Hd).
  destruct (finditer_head p text found Hne Hm) as (rest & Hf).
  exists k, p, (mk_match p 0 (list_ascii_of_string text) found).
  split; [exact Hin|]. split; [rewrite Hf; now left|exact Hc].
Qed.

Lemma valid_arg_value a :
  valid_arg a = true ->
  Py.truthy (Some (arg_value a)) = true.
Proof.
  destruct a as [v|v]; simpl; intros H; apply andb_true_iff in H;
    destruct H as [H _]; destruct v; simpl in *; congruence.
Qed.

(** The value the loop body reads from the captures of one argument. *)
Lemma group_or_rendered st en txt i a g n :
  valid_arg a = true -> 1 <= i -> S i <= n -> lookup i g = None ->
  group_or
    (MkMatch st en txt
             ((arg_group i a, list_ascii_of_string (arg_value a)) :: g) n)
    i (S i)
  = Ok (Some (arg_value a)).
Proof.
  intros Hv Hi Hn Hg. pose proof (valid_arg_value _ Hv) as Ht.
  unfold group_or, group. cbn [m_groups m_caps].
  replace (n <? i)%nat with false by (symmetry; apply Nat.ltb_ge; lia).
  replace (n <? S i)%nat with false by (symmetry; apply Nat.ltb_ge; lia).
  destruct i as [|i]; [lia|]. cbn [bind lookup].
  destruct a as [v|v]; cbn [arg_group arg_value] in *.
  - replace (S (S i) =? S i)%nat with false
      by (symmetry; apply Nat.eqb_neq; lia).
    rewrite Hg, Nat.eqb_refl. cbn [option_map Py.truthy].
    now rewrite string_of_list_ascii_of_string.
  - rewrite Nat.eqb_refl. cbn [option_map].
    rewrite string_of_list_ascii_of_string, Ht. reflexivity.
Qed.

(** The command the loop body makes of a match of a one-target pattern on
    a rendered argument. *)
Lemma target_command_rendered k p pos s a rest :
  In k target_kinds -> valid_arg a = true ->
  p = target_pattern (String "/" k) ->
  match_command k
    (mk_match p pos s
       ([(arg_group 1 a, list_ascii_of_string (arg_value a))], rest))
  = Ok (k, Arg (Some (arg_value a))).
Proof.
  intros Hk Hv ->. unfold match_command. rewrite (target_kinds_plain _ Hk).
  unfold mk_match. cbn [fst snd]. rewrite ngroups_target.
  rewrite group_or_rendered; [reflexivity|auto..].
Qed.

(** The same for [/add]. *)
Lemma add_command_rendered pos s feature target rest :
  valid_arg feature = true -> valid_arg target = true ->
  match_command "add"
    (mk_match add_pattern pos s
       ([(arg_group 3 target, list_ascii_of_string (arg_value target));
         (arg_group 1 feature, list_ascii_of_string (arg_value feature))],
        rest))
  = Ok ("add", AddArgs (Some (arg_value feature)) (Some (arg_value target))).
Proof.
  intros Hf Ht. unfold match_command, mk_match.
  cbn [existsb String.eqb Ascii.eqb Bool.eqb orb fst snd].
  change (ngroups add_pattern) with 4.
  set (st := pos). set (en := st + (length s - length rest)).
  set (txt := firstn (length s - length rest) s).
  assert (H1 : group_or
            (MkMatch st en txt
               [(arg_group 3 target, list_ascii_of_string (arg_value target));
                (arg_group 1 feature,
                 list_ascii_of_string (arg_value feature))] 4) 1 2
            = Ok (Some (arg_value feature))).
  { pose proof (group_or_rendered st en txt 1 feature [] 4 Hf
                  (le_n 1) ltac:(lia) eq_refl) as H.
    unfold group_or, group in *. cbn [m_groups m_caps] in *.
    destruct target; cbn [arg_group lookup Nat.eqb] in *; exact H. }
  rewrite H1. cbn [bind].
  rewrite group_or_rendered; [reflexivity|auto..].
  destruct feature; reflexivity.
Qed.

Lemma render_nonempty c : render c <> "".
Proof. destruct c; discriminate. Qed.

(** C10, as the code has it: a command string built from the grammar
    table with a valid argument shape is read back, provided the string
    holds neither [/help] nor a run of more than 4300 digits.  The parts of
    the string are separated by white space, any non-empty run of it.  Valid
    shapes are: a bare token, not empty and free of white space and of
    double quotes; a double-quoted string, not empty and free of double
    quotes; [all]; a non-empty list of positive integers in decimal,
    separated by commas, with or without white space around each integer.
    The result of [detect_commands] then contains the command of the same
    kind with the argument values the string was built from. *)
Theorem C10_roundtrip (c : generated) :
  valid c = true -> ~ contains "/help" (render c) ->
  short_digit_runs (list_ascii_of_string (render c)) ->
  exists cmds,
    detect_commands (render c) = Ok cmds /\ In (expected c) cmds.
Proof.
  intros Hv Hh Hs. pose proof (render_nonempty c) as Hne.
  destruct c as [k ws a|ws1 feature ws2 ws3 target|ws|ws e es];
    cbn [valid] in Hv.
  - apply andb_prop in Hv. destruct Hv as [Hv Ha].
    apply andb_prop in Hv. destruct Hv as [Hv Hb].
    apply existsb_target_kinds in Hv.
    destruct (blank_run ws) as [Hwn Hws]; [assumption|].
    assert (Ht : list_ascii_of_string (render (GenTarget k ws a))
                 = list_ascii_of_string (String "/" k) ++
                     list_ascii_of_string ws ++
                     list_ascii_of_string (render_arg a) ++ []).
    { cbn [render]. now rewrite !list_ascii_of_string_app, app_nil_r. }
    eapply detect_commands_head;
      [exact (target_in_table _ Hv)|exact Hne| | |exact Hh|exact Hs].
    + rewrite Ht. apply match_at_target_in_text; auto.
      destruct a; exact I.
    + now apply target_command_rendered.
  - apply andb_prop in Hv. destruct Hv as [Hv Hta].
    apply andb_prop in Hv. destruct Hv as [Hv Hb3].
    apply andb_prop in Hv. destruct Hv as [Hv Hb2].
    apply andb_prop in Hv. destruct Hv as [Hb1 Hfe].
    destruct (blank_run ws1) as [Hn1 Hs1]; [assumption|].
    destruct (blank_run ws2) as [Hn2 Hs2]; [assumption|].
    destruct (blank_run ws3) as [Hn3 Hs3]; [assumption|].
    assert (Ht : list_ascii_of_string
                   (render (GenAdd ws1 feature ws2 ws3 target))
                 = list_ascii_of_string "/add" ++
                     list_ascii_of_string ws1 ++
                     list_ascii_of_string (render_arg feature) ++
                     list_ascii_of_string ws2 ++
                     list_ascii_of_string "to" ++
                     list_ascii_of_string ws3 ++
                     list_ascii_of_string (render_arg target) ++ []).
    { cbn [render]. now rewrite !list_ascii_of_string_app, app_nil_r. }
    eapply detect_commands_head with (k := "add");
      [simpl; tauto|exact Hne| | |exact Hh|exact Hs].
    + rewrite Ht. apply match_at_add_in_text; auto.
      destruct target; exact I.
    + now apply add_command_rendered.
  - destruct (blank_run ws) as [Hwn Hws]; [assumption|].
    assert (Ht : list_ascii_of_string (render (GenImplementAll ws))
                 = list_ascii_of_string "/implement" ++
                     list_ascii_of_string ws ++
                     list_ascii_of_string "all" ++ []).
    { cbn [render]. now rewrite !list_ascii_of_string_app. }
    eapply detect_commands_head with (k := "implement");
      [simpl; tauto|exact Hne| | |exact Hh|exact Hs].
    + rewrite Ht. now apply match_at_implement_all.
    + reflexivity.
  - apply andb_prop in Hv. destruct Hv as [Hb Hes].
    destruct (blank_run ws) as [Hwn Hws]; [assumption|].
    assert (Ht : list_ascii_of_string (render (GenImplement ws e es))
                 = list_ascii_of_string "/implement" ++
                     list_ascii_of_string ws ++
                     list_ascii_of_string (join_entries e es) ++ []).
    { cbn [render]. now rewrite !list_ascii_of_string_app, app_nil_r. }
    destruct (implement_entries (list_ascii_of_string ws) e es [])
      as (found & Hm & Hc); auto; try exact I.
    { eapply short_digit_runs_infix; [exact Hs|].
      exists (list_ascii_of_string "/implement" ++ list_ascii_of_string ws),
        []. rewrite Ht. now rewrite <- !app_assoc. }
    eapply detect_commands_head with (k := "implement");
      [simpl; tauto|exact Hne| | |exact Hh|exact Hs].
    + rewrite Ht. exact Hm.
    + apply Hc.
Qed.

Lemma not_contains_help text :
  finditer help_pattern text = [] -> ~ contains "/help" text.
Proof. intros H Hc. now apply (finditer_help_found _ Hc). Qed.

Lemma C10_roundtrip_witness :
  valid (GenImplement " " (Entry "" 1 " ") [Entry " " 3 ""; Entry "" 5 ""])
  = true /\
  render (GenImplement " " (Entry "" 1 " ") [Entry " " 3 ""; Entry "" 5 ""])
  = "/implement 1 , 3,5" /\
  ~ contains "/help" "/implement 1 , 3,5" /\
  short_digit_runs (list_ascii_of_string "/implement 1 , 3,5") /\
  exists cmds,
    detect_commands "/implement 1 , 3,5" = Ok cmds /\
    In ("implement", Indices [1; 3; 5]%Z) cmds.
Proof.
  split; [reflexivity|]. split; [reflexivity|].
  split; [apply not_contains_help; reflexivity|].
  split; [apply short_text_short_runs; reflexivity|].
  apply (C10_roundtrip
           (GenImplement " " (Entry "" 1 " ")
                         [Entry " " 3 ""; Entry "" 5 ""]));
    [reflexivity|apply not_contains_help; reflexivity
    |apply short_text_short_runs; reflexivity].
Defined.

(** C10 as stated fails: a bare token may hold a double quote, and the
    capture stops in front of it, so the token [a"b"c] after [/fix] comes
    back as [a].  Nor is every generated string read back at all: the bare
    token [/help] after [/fix] makes [detect_commands] raise [IndexError],
    and the one-entry index list of the integer ten to the power 4300,
    which has 4301 digits, makes it raise [ValueError]. *)
Lemma C10_quote_in_token_counterexample :
  (detect_commands
     (render (GenTarget "fix" " " (Bare ("a" ++ dq ++ "b" ++ dq ++ "c"))))
   = Ok [("fix", Arg (Some "a"))] /\
   ~ In (expected (GenTarget "fix" " "
                             (Bare ("a" ++ dq ++ "b" ++ dq ++ "c"))))
        [("fix", Arg (Some "a"))]) /\
  detect_commands (render (GenTarget "fix" " " (Bare "/help")))
  = Raise IndexError /\
  (String.length (decimal (10 ^ 4300)) = 4301 /\
   detect_commands (render (GenImplement " " (Entry "" (10 ^ 4300) "") []))
   = Raise ValueError).
Proof.
  split; [split; [reflexivity|]|split; [reflexivity|]].
  - simpl. intros [H|[]]. discriminate H.
  - split; vm_compute; reflexivity.
Qed.

(** * Beyond the claims: [CommandProcessor._extract_commands] *)

Lemma each_target_each_match k : forall ms commands,
  existsb (String.eqb k) ["add"; "implement"] = false ->
  CommandProcessor.each_target k ms commands = each_match k ms commands.
Proof.
  induction ms as [|m ms IH];
    cbn [CommandProcessor.each_target each_match]; intros commands Hk;
    [reflexivity|].
  unfold match_command. rewrite Hk.
  destruct (group_or m 1 2) as [t|e]; cbn [bind]; [|reflexivity].
  now apply IH.
Qed.

Lemma each_add_each_match : forall ms commands,
  CommandProcessor.each_add ms commands = each_match "add" ms commands.
Proof.
  induction ms as [|m ms IH];
    cbn [CommandProcessor.each_add each_match]; intros commands;
    [reflexivity|].
  unfold match_command.
  cbn [existsb String.eqb Ascii.eqb Bool.eqb orb].
  destruct (group_or m 1 2) as [f|e]; cbn [bind]; [|reflexivity].
  destruct (group_or m 3 4) as [t|e]; cbn [bind]; [|reflexivity]. apply IH.
Qed.

(** The commands of the five loops, then help if [re.search] finds it. *)
Lemma extract_commands_traverse body :
  CommandProcessor._extract_commands body
  = (css <- traverse (entry_commands body) extract_entries ;;
     Ok (concat css ++
         match search CommandProcessor.HELP_PATTERN body with
         | Some _ => [help_command]
         | None => []
         end)).
Proof.
  unfold CommandProcessor._extract_commands, extract_entries, entry_commands.
  cbn [traverse fst snd].
  rewrite each_target_each_match, each_match_traverse by reflexivity.
  destruct (traverse (match_command "fix") _) as [c1|e]; cbn [bind];
    [|reflexivity].
  rewrite each_target_each_match, each_match_traverse by reflexivity.
  destruct (traverse (match_command "improve") _) as [c2|e]; cbn [bind];
    [|reflexivity].
  rewrite each_target_each_match, each_match_traverse by reflexivity.
  destruct (traverse (match_command "document") _) as [c3|e]; cbn [bind];
    [|reflexivity].
  rewrite each_add_each_match, each_match_traverse.
  destruct (traverse (match_command "add") _) as [c4|e]; cbn [bind];
    [|reflexivity].
  rewrite each_target_each_match, each_match_traverse by reflexivity.
  destruct (traverse (match_command "explain") _) as [c5|e]; cbn [bind];
    [|reflexivity].
  cbn [concat app]. rewrite app_nil_r.
  destruct (search _ _); rewrite ?app_nil_r, <- ?app_assoc; reflexivity.
Qed.

Lemma extract_entries_in_table e :
  In e extract_entries -> In e COMMAND_PATTERNS /\ fst e <> "help".
Proof.
  unfold extract_entries. simpl. intros H.
  repeat (destruct H as [<-|H]; [split; [simpl; tauto|discriminate]|]).
  contradiction.
Qed.

Lemma extract_entries_ok body :
  exists css,
    Forall2 (fun e cs => entry_commands body e = Ok cs) extract_entries css.
Proof.
  destruct (traverse_total (entry_commands body) extract_entries)
    as (css & H).
  - intros [k p] Hin. destruct (extract_entries_in_table _ Hin).
    apply entry_commands_plain; auto.
    unfold extract_entries in Hin. simpl in Hin. intros ->.
    repeat (destruct Hin as [Hin|Hin]; [discriminate|]). contradiction.
  - exists css. now apply traverse_Ok.
Qed.

(** X1.  [_extract_commands] returns normally on every comment body: each
    of its patterns has the groups its loop asks for, and help is found
    with [re.search] without reading a group. *)
Theorem extract_commands_never_raises (body : string) :
  exists cmds, CommandProcessor._extract_commands body = Ok cmds.
Proof.
  rewrite extract_commands_traverse.
  destruct (extract_entries_ok body) as (css & H).
  apply traverse_Ok in H. rewrite H. cbn [bind]. eauto.
Qed.

Lemma search_help_contains body :
  (exists m, search help_pattern body = Some m) <-> contains "/help" body.
Proof.
  unfold search. split.
  - intros (m & H).
    destruct (finditer help_pattern body) as [|m' ms] eqn:E; [discriminate|].
    assert (Hm : In m' (finditer help_pattern body)) by (rewrite E; now left).
    apply finditer_sound in Hm.
    destruct Hm as (pre & suf & [g rest] & Hs & Hmatch & _).
    apply match_at_sound in Hmatch. destruct Hmatch as (w & -> & Hw).
    inversion Hw; subst. apply contains_list. eauto.
  - intros H. apply finditer_help_found in H.
    destruct (finditer help_pattern body); [congruence|eauto].
Qed.

Lemma entry_commands_occurrence body k p cs c :
  In (k, p) COMMAND_PATTERNS -> entry_commands body (k, p) = Ok cs ->
  In c cs -> fst c = k /\ occurrence (list_ascii_of_string body) c.
Proof.
  intros Hin He Hc. unfold entry_commands in He. cbn [fst snd] in He.
  apply traverse_Ok in He.
  destruct (Forall2_In_r _ _ _ _ He Hc) as (m & Hm & Hcmd).
  split; [now apply (match_command_kind _ m)|].
  destruct (entry_match_command _ _ _ _ Hin Hm)
    as [[_ Hr]|[(_ & c' & Hc' & Hocc)|(_ & Hr & _)]]; congruence.
Qed.

(** The commands of the five loops: each of a kind of its own loop, and
    each standing in the body. *)
Lemma extract_entries_commands body css c :
  Forall2 (fun e cs => entry_commands body e = Ok cs) extract_entries css ->
  In c (concat css) ->
  extract_kind c = true /\ occurrence (list_ascii_of_string body) c.
Proof.
  intros HF Hc. apply in_concat in Hc. destruct Hc as (cs & Hcs & Hc).
  destruct (Forall2_In_r _ _ _ _ HF Hcs) as ([k p] & Hin & He).
  destruct (extract_entries_in_table _ Hin) as [Htab _].
  destruct (entry_commands_occurrence _ _ _ _ _ Htab He Hc) as [Hk Hocc].
  split; [|exact Hocc].
  unfold extract_kind. rewrite Hk.
  unfold extract_entries in Hin. simpl in Hin.
  repeat (destruct Hin as [Hin|Hin]; [inversion Hin; reflexivity|]).
  contradiction.
Qed.

Lemma extract_commands_Ok body cmds :
  CommandProcessor._extract_commands body = Ok cmds ->
  exists css,
    Forall2 (fun e cs => entry_commands body e = Ok cs) extract_entries css /\
    cmds = concat css ++
           match search help_pattern body with
           | Some _ => [help_command]
           | None => []
           end.
Proof.
  rewrite extract_commands_traverse.
  destruct (traverse (entry_commands body) extract_entries) as [css|e] eqn:E;
    cbn [bind]; [|discriminate].
  intros [= <-]. exists css. split; [now apply traverse_Ok|reflexivity].
Qed.

(** X2.  [_extract_commands] reports help at most once, as the last
    command, and exactly when the body contains [/help]; every command
    before it is of one of the five other kinds. *)
Theorem extract_commands_help_once (body : string) (cmds : list command) :
  CommandProcessor._extract_commands body = Ok cmds ->
  exists cs,
    Forall (fun c => extract_kind c = true) cs /\
    ((contains "/help" body /\ cmds = cs ++ [help_command]) \/
     (~ contains "/help" body /\ cmds = cs)).
Proof.
  intros H. apply extract_commands_Ok in H. destruct H as (css & HF & ->).
  exists (concat css). split.
  - apply Forall_forall. intros c Hc.
    now destruct (extract_entries_commands _ _ _ HF Hc).
  - destruct (search help_pattern body) as [m|] eqn:E.
    + left. split; [|reflexivity]. apply search_help_contains. eauto.
    + right. split; [|now rewrite app_nil_r].
      intros Hc. apply search_help_contains in Hc.
      destruct Hc as (m & Hm). congruence.
Qed.

Lemma extract_commands_help_once_witness :
  CommandProcessor._extract_commands "/help me, /help! and /fix a"
  = Ok [("fix", Arg (Some "a")); help_command] /\
  exists cs,
    Forall (fun c => extract_kind c = true) cs /\
    ((contains "/help" "/help me, /help! and /fix a" /\
      [("fix", Arg (Some "a")); help_command] = cs ++ [help_command]) \/
     (~ contains "/help" "/help me, /help! and /fix a" /\
      [("fix", Arg (Some "a")); help_command] = cs)).
Proof.
  split; [reflexivity|].
  apply (extract_commands_help_once "/help me, /help! and /fix a").
  reflexivity.
Defined.

(** X3.  Apart from the help command, every command [_extract_commands]
    returns carries a non-empty target (for [/add], a non-empty feature
    too). *)
Theorem extract_commands_targets_nonempty (body : string)
        (cmds : list command) :
  CommandProcessor._extract_commands body = Ok cmds ->
  Forall (fun c => c = help_command \/ targets_nonempty c) cmds.
Proof.
  intros H. apply extract_commands_Ok in H. destruct H as (css & HF & ->).
  apply Forall_app. split.
  - apply Forall_forall. intros c Hc. right.
    destruct (extract_entries_commands _ _ _ HF Hc) as [_ Hocc].
    destruct Hocc; unfold targets_nonempty; simpl;
      eauto using arg_text_nonempty.
  - destruct (search help_pattern body); repeat constructor.
Qed.

Lemma extract_commands_targets_nonempty_witness :
  CommandProcessor._extract_commands "/help and /add x to Y.java"
  = Ok [("add", AddArgs (Some "x") (Some "Y.java")); help_command] /\
  Forall (fun c => c = help_command \/ targets_nonempty c)
         [("add", AddArgs (Some "x") (Some "Y.java")); help_command].
Proof.
  split; [reflexivity|].
  apply (extract_commands_targets_nonempty "/help and /add x to Y.java").
  reflexivity.
Defined.

(** * Beyond the claims: the two detectors side by side *)

Lemma entry_commands_kind body k p cs :
  entry_commands body (k, p) = Ok cs -> Forall (fun c => fst c = k) cs.
Proof.
  unfold entry_commands. cbn [fst snd]. intros H. apply traverse_Ok in H.
  apply Forall_forall. intros c Hc.
  destruct (Forall2_In_r _ _ _ _ H Hc) as (m & _ & Hm).
  now apply (match_command_kind _ m).
Qed.

Lemma filter_kind_keep k cs :
  existsb (String.eqb k) ["fix"; "improve"; "document"; "add"; "explain"]
  = true ->
  Forall (fun c : command => fst c = k) cs -> filter extract_kind cs = cs.
Proof.
  intros Hk. induction 1 as [|c cs Hc _ IH]; simpl; [reflexivity|].
  unfold extract_kind at 1. now rewrite Hc, Hk, IH.
Qed.

Lemma filter_kind_drop k cs :
  existsb (String.eqb k) ["fix"; "improve"; "document"; "add"; "explain"]
  = false ->
  Forall (fun c : command => fst c = k) cs -> filter extract_kind cs = [].
Proof.
  intros Hk. induction 1 as [|c cs Hc _ IH]; simpl; [reflexivity|].
  unfold extract_kind at 1. now rewrite Hc, Hk, IH.
Qed.

(** A result of [detect_commands] means that no [/help] was matched. *)
Lemma detect_commands_Ok_no_help text cmds :
  detect_commands text = Ok cmds -> finditer help_pattern text = [].
Proof.
  intros Hd. destruct (finditer help_pattern text) as [|m ms] eqn:E;
    [reflexivity|exfalso].
  assert (Hne : finditer help_pattern text <> [])
    by (rewrite E; discriminate).
  destruct (detect_commands_with_help _ Hne) as [Hr|[Hr _]]; congruence.
Qed.

(** X4.  Wherever [detect_commands] returns, the two detectors agree on
    the kinds they share: [_extract_commands] returns the result of
    [detect_commands] with the analyze, implement, refactor and test
    commands left out, in the same order. *)
Theorem extract_commands_agrees_with_detect (text : string)
        (cmds : list command) :
  detect_commands text = Ok cmds ->
  CommandProcessor._extract_commands text = Ok (filter extract_kind cmds).
Proof.
  intros Hd. pose proof (detect_commands_Ok_no_help _ _ Hd) as Hnone.
  apply detect_commands_Ok in Hd. destruct Hd as (css & HF & ->).
  unfold COMMAND_PATTERNS in HF.
  repeat match goal with
         | H : Forall2 _ (_ :: _) _ |- _ =>
             inversion H as [|? ? ? ? ? ?]; subst; clear H
         | H : Forall2 _ [] _ |- _ => inversion H; subst; clear H
         end.
  rewrite extract_commands_traverse.
  unfold extract_entries, CommandProcessor.FIX_PATTERN,
    CommandProcessor.IMPROVE_PATTERN, CommandProcessor.DOCUMENT_PATTERN,
    CommandProcessor.ADD_PATTERN, CommandProcessor.EXPLAIN_PATTERN,
    CommandProcessor.HELP_PATTERN, search.
  cbn [traverse].
  repeat match goal with
         | H : entry_commands text _ = Ok _ |- _ =>
             rewrite ?H; apply entry_commands_kind in H
         end.
  rewrite Hnone. cbn [bind concat]. rewrite !app_nil_r.
  rewrite !filter_app.
  repeat match goal with
         | H : Forall (fun c => fst c = ?k) ?cs |- _ =>
             first [ rewrite (filter_kind_keep k cs eq_refl H)
                   | rewrite (filter_kind_drop k cs eq_refl H) ];
             clear H
         end.
  cbn [app]. now rewrite ?app_nil_r.
Qed.

Lemma extract_commands_agrees_with_detect_witness :
  detect_commands "/test T and /explain E or /fix F"
  = Ok [("fix", Arg (Some "F")); ("explain", Arg (Some "E"));
        ("test", Arg (Some "T"))] /\
  CommandProcessor._extract_commands "/test T and /explain E or /fix F"
  = Ok (filter extract_kind
          [("fix", Arg (Some "F")); ("explain", Arg (Some "E"));
           ("test", Arg (Some "T"))]).
Proof.
  split; [reflexivity|].
  apply (extract_commands_agrees_with_detect
           "/test T and /explain E or /fix F").
  reflexivity.
Defined.

(** Every pattern of the table starts at a slash. *)
Lemma table_match_slash k p s found :
  In (k, p) COMMAND_PATTERNS -> match_at p s = Some found ->
  exists rest, s = "/"%char :: rest.
Proof.
  intros Hin Hm. destruct found as [g rest].
  apply match_at_sound in Hm. destruct Hm as (w & -> & Hw).
  destruct (COMMAND_PATTERNS_cases _ _ Hin)
    as [[Hk ->]|[[-> ->]|[[-> ->]|[-> ->]]]].
  - apply target_pattern_inv in Hw.
    destruct Hw as (ws & a & -> & _). simpl. eauto.
  - apply add_pattern_inv in Hw.
    destruct Hw as (ws1 & a1 & ws2 & ws3 & a2 & g1 & -> & _). simpl. eauto.
  - apply implement_pattern_inv in Hw.
    destruct Hw as (ws & _ & _ & [[-> _]|(body & -> & _)]); simpl; eauto.
  - inversion Hw; subst. simpl. eauto.
Qed.

Lemma finditer_no_slash k p text :
  In (k, p) COMMAND_PATTERNS ->
  (forall c, In c (list_ascii_of_string text) -> c <> "/"%char) ->
  finditer p text = [].
Proof.
  intros Hin Hno. apply finditer_from_nil. intros pre suf Hs.
  destruct (match_at p suf) as [found|] eqn:E; [exfalso|reflexivity].
  destruct (table_match_slash _ _ _ _ Hin E) as (rest & ->).
  apply (Hno "/"%char); [|reflexivity].
  rewrite Hs. apply in_or_app. right. now left.
Qed.

Lemma traverse_all_nil {A B} (f : A -> result (list B)) : forall xs,
  (forall x, In x xs -> f x = Ok []) ->
  exists css, traverse f xs = Ok css /\ concat css = [].
Proof.
  induction xs as [|x xs IH]; simpl; intros H; [eauto|].
  rewrite (H x (or_introl eq_refl)).
  destruct IH as (css & -> & Hc); [auto|]. simpl. eauto.
Qed.

(** X5.  A text without a slash holds no command for either detector:
    both return the empty list. *)
Theorem no_slash_no_commands (text : string) :
  (forall c, In c (list_ascii_of_string text) -> c <> "/"%char) ->
  detect_commands text = Ok [] /\
  CommandProcessor._extract_commands text = Ok [].
Proof.
  intros Hno.
  assert (He : forall e, In e COMMAND_PATTERNS ->
                         entry_commands text e = Ok []).
  { intros [k p] Hin. unfold entry_commands. cbn [fst snd].
    now rewrite (finditer_no_slash _ _ _ Hin Hno). }
  split.
  - rewrite detect_commands_traverse.
    destruct (traverse_all_nil _ _ He) as (css & -> & Hc).
    cbn [bind]. now rewrite Hc.
  - rewrite extract_commands_traverse.
    destruct (traverse_all_nil (entry_commands text) extract_entries)
      as (css & -> & Hc).
    { intros e Hin. apply He. now apply extract_entries_in_table. }
    cbn [bind]. rewrite Hc. unfold search, CommandProcessor.HELP_PATTERN.
    rewrite (finditer_no_slash "help" help_pattern text); [reflexivity| |auto].
    simpl. tauto.
Qed.

Lemma no_slash_no_commands_witness :
  (forall c, In c (list_ascii_of_string "fix Foo.java, help") ->
             c <> "/"%char) /\
  detect_commands "fix Foo.java, help" = Ok [] /\
  CommandProcessor._extract_commands "fix Foo.java, help" = Ok [].
Proof.
  assert (H : forall c, In c (list_ascii_of_string "fix Foo.java, help") ->
                        c <> "/"%char).
  { simpl. intros c Hc.
    repeat (destruct Hc as [<-|Hc]; [discriminate|]). contradiction. }
  split; [exact H|]. apply (no_slash_no_commands "fix Foo.java, help" H).
Defined.

(** X6.  [detect_commands] raises in two ways only.  One is the
    [IndexError] of a [/help] occurrence; the other is the [ValueError] of
    [int] on an entry of an index list, and then the text holds a run of
    more than 4300 digits.  No group it reads a string from is [None].  On
    a text with [/help] it never returns; on a text without [/help] and
    without such a run it returns normally.  Both errors occur: 4301 digits
    after [/implement] raise [ValueError], also when [/help] follows. *)
Theorem detect_commands_raise_cases :
  (forall (text : string) (e : exn),
      detect_commands text = Raise e ->
      (e = IndexError /\ contains "/help" text) \/
      (e = ValueError /\ long_digit_run (list_ascii_of_string text))) /\
  (forall (text : string) (cmds : list command),
      contains "/help" text -> detect_commands text <> Ok cmds) /\
  (forall text : string,
      ~ contains "/help" text ->
      short_digit_runs (list_ascii_of_string text) ->
      exists cmds, detect_commands text = Ok cmds) /\
  detect_commands "see /help" = Raise IndexError /\
  detect_commands
    ("/implement " ++ string_of_list_ascii (repeat "1"%char 4301))
  = Raise ValueError /\
  detect_commands
    ("/implement " ++ string_of_list_ascii (repeat "1"%char 4301) ++ " /help")
  = Raise ValueError.
Proof.
  split; [|split; [|split; [|repeat split; vm_compute; reflexivity]]].
  - intros text e He.
    destruct (detect_commands_raise _ _ He) as [[-> Hne]|[-> Hl]];
      [left|right; auto].
    split; [reflexivity|]. apply search_help_contains. unfold search.
    destruct (finditer help_pattern text) as [|m ms]; [congruence|eauto].
  - intros text cmds Hc Hd.
    apply (finditer_help_found _ Hc).
    exact (detect_commands_Ok_no_help _ _ Hd).
  - intros text Hh Hs.
    exact (detect_commands_without_help _ (finditer_help_none _ Hh) Hs).
Qed.

Lemma detect_commands_raise_cases_witness :
  ~ contains "/help" "/implement 1, 2 and /fix A.java" /\
  short_digit_runs (list_ascii_of_string "/implement 1, 2 and /fix A.java") /\
  exists cmds, detect_commands "/implement 1, 2 and /fix A.java" = Ok cmds.
Proof.
  split; [apply not_contains_help; reflexivity|].
  split; [apply short_text_short_runs; reflexivity|].
  apply (proj1 (proj2 (proj2 detect_commands_raise_cases))
           "/implement 1, 2 and /fix A.java");
    [apply not_contains_help; reflexivity
    |apply short_text_short_runs; reflexivity].
Defined.

(** * Beyond the claims: the matches of one pattern *)

Lemma table_matches_slash k p w g :
  In (k, p) COMMAND_PATTERNS -> re_matches p w [] g ->
  exists w', w = "/"%char :: w'.
Proof.
  intros Hin Hw.
  destruct (COMMAND_PATTERNS_cases _ _ Hin)
    as [[Hk ->]|[[-> ->]|[[-> ->]|[-> ->]]]].
  - apply target_pattern_inv in Hw.
    destruct Hw as (ws & a & -> & _). simpl. eauto.
  - apply add_pattern_inv in Hw.
    destruct Hw as (ws1 & a1 & ws2 & ws3 & a2 & g1 & -> & _). simpl. eauto.
  - apply implement_pattern_inv in Hw.
    destruct Hw as (ws & _ & _ & [[-> _]|(body & -> & _)]); simpl; eauto.
  - inversion Hw; subst. simpl. eauto.
Qed.

(** No pattern of the table matches the empty string. *)
Lemma patterns_consume k p s found :
  In (k, p) COMMAND_PATTERNS -> match_at p s = Some found ->
  length (snd found) < length s.
Proof.
  intros Hin Hm. destruct found as [g rest].
  apply match_at_sound in Hm. destruct Hm as (w & -> & Hw).
  destruct (table_matches_slash _ _ _ _ Hin Hw) as (w' & ->).
  simpl. rewrite length_app. lia.
Qed.

Lemma finditer_from_bounds r :
  (forall s found, match_at r s = Some found ->
                   length (snd found) < length s) ->
  forall s pos skip m,
    In m (finditer_from r pos skip s) ->
    pos + skip <= m_start m /\ m_start m < m_end m /\
    m_end m <= pos + length s.
Proof.
  intros Hc. induction s as [|c s IH]; cbn [finditer_from];
    intros pos skip m H.
  - destruct skip; [|contradiction].
    destruct (match_at r []) as [found|] eqn:E; [|contradiction].
    apply Hc in E. simpl in E. lia.
  - destruct skip as [|n].
    + destruct (match_at r (c :: s)) as [found|] eqn:E.
      * pose proof (Hc _ _ E) as Hlen. cbn [length] in *.
        destruct H as [<-|H].
        -- unfold mk_match. cbn [m_start m_end length]. lia.
        -- apply IH in H. lia.
      * apply IH in H. cbn [length]. lia.
    + apply IH in H. cbn [length]. lia.
Qed.

Lemma finditer_from_disjoint r :
  (forall s found, match_at r s = Some found ->
                   length (snd found) < length s) ->
  forall s pos skip,
    StronglySorted (fun a b => m_end a <= m_start b)
                   (finditer_from r pos skip s).
Proof.
  intros Hc. induction s as [|c s IH]; cbn [finditer_from]; intros pos skip.
  - destruct skip; [|constructor].
    destruct (match_at r []); repeat constructor.
  - destruct skip as [|n]; [|apply IH].
    destruct (match_at r (c :: s)) as [found|] eqn:E; [|apply IH].
    constructor; [apply IH|].
    apply Forall_forall. intros m Hm.
    apply (finditer_from_bounds r Hc) in Hm.
    pose proof (Hc _ _ E) as Hlen. cbn [length] in *.
    unfold mk_match. cbn [m_start m_end length]. lia.
Qed.

(** X7.  The occurrences [re.finditer] reports for one pattern of the
    table never overlap, each is non-empty and lies within the text: no
    piece of the text is counted for two commands of one kind. *)
Theorem table_matches_disjoint (k : string) (p : regex) (text : string) :
  In (k, p) COMMAND_PATTERNS ->
  StronglySorted (fun a b => m_end a <= m_start b) (finditer p text) /\
  Forall (fun m => m_start m < m_end m /\ m_end m <= String.length text)
         (finditer p text).
Proof.
  intros Hin.
  assert (Hc : forall s found, match_at p s = Some found ->
                               length (snd found) < length s)
    by (intros s found; now apply (patterns_consume k)).
  split; [now apply finditer_from_disjoint|].
  apply Forall_forall. intros m Hm.
  apply (finditer_from_bounds p Hc) in Hm.
  assert (Hl : length (list_ascii_of_string text) = String.length text).
  { clear. induction text; simpl; auto. }
  rewrite <- Hl. lia.
Qed.

Lemma table_matches_disjoint_witness :
  In ("fix", target_pattern "/fix") COMMAND_PATTERNS /\
  StronglySorted (fun a b => m_end a <= m_start b)
                 (finditer (target_pattern "/fix") "/fix /fix x /fix y") /\
  Forall (fun m => m_start m < m_end m /\
                   m_end m <= String.length "/fix /fix x /fix y")
         (finditer (target_pattern "/fix") "/fix /fix x /fix y").
Proof.
  split; [simpl; tauto|].
  apply (table_matches_disjoint "fix"). simpl. tauto.
Defined.

(** * Beyond the claims: a command inside a longer text *)

Lemma target_match_keyword kw s found :
  match_at (target_pattern kw) s = Some found ->
  exists rest, s = list_ascii_of_string kw ++ rest.
Proof.
  destruct found as [g rest]. intros Hm.
  apply match_at_sound in Hm. destruct Hm as (w & -> & Hw).
  apply target_pattern_inv in Hw. destruct Hw as (ws & a & -> & _).
  rewrite <- !app_assoc. eauto.
Qed.

Lemma target_kinds_no_slash k :
  In k target_kinds -> ~ In "/"%char (list_ascii_of_string k).
Proof.
  unfold target_kinds. simpl. intros H.
  repeat (destruct H as [<-|H];
          [simpl; intros Hin;
           repeat (destruct Hin as [Hin|Hin]; [discriminate|]);
           contradiction|]).
  contradiction.
Qed.

(** A keyword that starts in front of an occurrence of itself lies wholly
    in front of it: the keyword has its only slash at its head. *)
Lemma keyword_not_astride kl pre p1 p2 tail rest :
  ~ In "/"%char kl ->
  (forall a b, pre <> a ++ ("/"%char :: kl) ++ b) ->
  pre = p1 ++ p2 -> p2 <> [] ->
  p2 ++ ("/"%char :: kl) ++ tail <> ("/"%char :: kl) ++ rest.
Proof.
  intros Hno Hpre -> Hp2 E.
  apply app_eq_app in E. destruct E as (l0 & [[-> _]|[Hk Ht]]).
  - apply (Hpre p1 l0). reflexivity.
  - destruct p2 as [|c p2]; [congruence|].
    simpl in Hk. injection Hk as Hc Hkl.
    destruct l0 as [|d l0].
    + rewrite app_nil_r in Hkl. subst.
      apply (Hpre p1 []). now rewrite app_nil_r.
    + simpl in Ht. injection Ht as Hd _.
      apply Hno. rewrite Hkl, Hd. apply in_or_app. right. now left.
Qed.

(** The scan reports the first place where the matcher succeeds. *)
Lemma finditer_from_first r s found : forall pre pos,
  (forall p1 p2, pre = p1 ++ p2 -> p2 <> [] ->
                 match_at r (p2 ++ s) = None) ->
  match_at r s = Some found -> s <> [] ->
  exists rest,
    finditer_from r pos 0 (pre ++ s)
    = mk_match r (pos + length pre) s found :: rest.
Proof.
  induction pre as [|c pre IH]; intros pos Hnone Hm Hs.
  - destruct s as [|c s]; [congruence|]. simpl. rewrite Hm.
    rewrite Nat.add_0_r. eauto.
  - pose proof (Hnone [] (c :: pre) eq_refl) as Hhere.
    cbn [app] in Hhere. cbn [app finditer_from].
    rewrite Hhere by discriminate.
    destruct (IH (S pos)) as (rest & ->); auto.
    + intros p1 p2 -> Hp2. now apply (Hnone (c :: p1) p2).
    + cbn [length]. rewrite Nat.add_succ_r. eauto.
Qed.

(** X8.  A one-target command is found anywhere in a text, after any
    prose and with any white space (line breaks too) between keyword and
    argument: if the keyword does not already occur in the text before it,
    a bare argument is followed by nothing, white space or a double quote,
    and the text has neither [/help] nor a run of more than 4300 digits,
    the result holds the command with the argument as written. *)
Theorem embedded_target_detected (k : string) (a : arg_shape)
        (pre ws post : string) :
  In k target_kinds -> valid_arg a = true ->
  ~ contains (String "/" k) pre ->
  ws <> "" -> forallb Py.isspace (list_ascii_of_string ws) = true ->
  arg_ends a (list_ascii_of_string post) ->
  ~ contains "/help" (pre ++ String "/" k ++ ws ++ render_arg a ++ post) ->
  short_digit_runs
    (list_ascii_of_string
       (pre ++ String "/" k ++ ws ++ render_arg a ++ post)) ->
  exists cmds,
    detect_commands (pre ++ String "/" k ++ ws ++ render_arg a ++ post)
    = Ok cmds /\
    In (k, Arg (Some (arg_value a))) cmds.
Proof.
  intros Hk Hv Hpre Hws Hsp Hend Hh Hshort.
  set (text := (pre ++ String "/" k ++ ws ++ render_arg a ++ post)%string)
    in *.
  set (s := list_ascii_of_string (String "/" k) ++ list_ascii_of_string ws ++
            list_ascii_of_string (render_arg a) ++ list_ascii_of_string post).
  assert (Htext : list_ascii_of_string text = list_ascii_of_string pre ++ s).
  { unfold text, s. now rewrite !list_ascii_of_string_app. }
  assert (Hwne : list_ascii_of_string ws <> [])
    by (destruct ws; simpl; congruence).
  pose proof (match_at_target_in_text (String "/" k) _ a
                (list_ascii_of_string post) Hv Hwne Hsp Hend) as Hm.
  fold s in Hm.
  destruct (finditer_from_first (target_pattern (String "/" k)) s
              ([(arg_group 1 a, list_ascii_of_string (arg_value a))],
               list_ascii_of_string post)
              (list_ascii_of_string pre) 0) as (rest & Hf).
  - intros p1 p2 Hp Hp2.
    destruct (match_at _ (p2 ++ s)) as [found|] eqn:E; [exfalso|reflexivity].
    destruct (target_match_keyword _ _ _ E) as (r & Hr).
    unfold s in Hr. cbn [list_ascii_of_string] in Hr.
    refine (keyword_not_astride (list_ascii_of_string k)
              (list_ascii_of_string pre) p1 p2 _ r
              (target_kinds_no_slash _ Hk) _ Hp Hp2 Hr).
    intros x y Hxy. apply Hpre. apply contains_list. eauto.
  - exact Hm.
  - unfold s. simpl. discriminate.
  - destruct (detect_commands_without_help text (finditer_help_none _ Hh)
                Hshort) as (cmds & Hd).
    exists cmds. split; [exact Hd|].
    apply (detect_commands_In _ _ (k, Arg (Some (arg_value a))) Hd).
    eexists k, (target_pattern (String "/" k)), _.
    split; [now apply target_in_table|].
    split; [unfold finditer; rewrite Htext, Hf; now left|].
    now apply target_command_rendered.
Qed.

Lemma embedded_target_detected_witness :
  In "document" target_kinds /\ valid_arg (Quoted "My File.java") = true /\
  ~ contains "/document" "Please /fix a.java, then" /\
  String (ascii_of_nat 10) " " <> "" /\
  forallb Py.isspace (list_ascii_of_string (String (ascii_of_nat 10) " "))
  = true /\
  arg_ends (Quoted "My File.java") (list_ascii_of_string ", thanks") /\
  short_digit_runs
    (list_ascii_of_string
       ("Please /fix a.java, then" ++ "/document" ++
        String (ascii_of_nat 10) " " ++ render_arg (Quoted "My File.java") ++
        ", thanks")) /\
  exists cmds,
    detect_commands
      ("Please /fix a.java, then" ++ "/document" ++
       String (ascii_of_nat 10) " " ++ render_arg (Quoted "My File.java") ++
       ", thanks")
    = Ok cmds /\
    In ("document", Arg (Some "My File.java")) cmds.
Proof.
  assert (Hpre : ~ contains "/document" "Please /fix a.java, then").
  { intros Hc. apply contains_list in Hc. destruct Hc as (x & y & E).
    assert (Hn : finditer_from (lit "/document") 0 0
                   (list_ascii_of_string "Please /fix a.java, then") <> []).
    { rewrite E. eapply finditer_from_complete. apply match_at_lit. }
    apply Hn. reflexivity. }
  split; [simpl; tauto|]. split; [reflexivity|]. split; [exact Hpre|].
  split; [discriminate|]. split; [reflexivity|]. split; [exact I|].
  split; [apply short_text_short_runs; reflexivity|].
  apply (embedded_target_detected "document" (Quoted "My File.java")
           "Please /fix a.java, then" (String (ascii_of_nat 10) " ")
           ", thanks");
    [simpl; tauto|reflexivity|exact Hpre|discriminate|reflexivity|exact I
    |apply not_contains_help; reflexivity
    |apply short_text_short_runs; reflexivity].
Defined.

(** * Beyond the claims: the code block of a reply *)

Lemma lazy_any_spec {A} (k : cont A) g x : forall s,
  CodeBlock.lazy_any s g k = Some x ->
  exists c rest,
    s = c ++ rest /\ k rest g = Some x /\
    forall c1 c2, c = c1 ++ c2 -> c2 <> [] -> k (c2 ++ rest) g = None.
Proof.
  induction s as [|a s IH]; cbn [CodeBlock.lazy_any]; intros H.
  - destruct (k [] g) eqn:E; [|discriminate]. inversion H; subst.
    exists [], []. repeat split; auto.
    intros c1 c2 Hc Hne. destruct c1; destruct c2; simpl in Hc; congruence.
  - destruct (k (a :: s) g) eqn:E.
    + inversion H; subst. exists [], (a :: s). repeat split; auto.
      intros c1 c2 Hc Hne. destruct c1; destruct c2; simpl in Hc; congruence.
    + destruct (IH H) as (c & rest & -> & Hk & Hmin).
      exists (a :: c), rest. repeat split; auto.
      intros c1 c2 Hc Hne. destruct c1 as [|b c1]; simpl in Hc.
      * subst c2. exact E.
      * injection Hc as _ Hc. now apply (Hmin c1).
Qed.

Lemma lazy_any_first {A} (k : cont A) g x rest : forall c,
  (forall c1 c2, c = c1 ++ c2 -> c2 <> [] -> k (c2 ++ rest) g = None) ->
  k rest g = Some x -> CodeBlock.lazy_any (c ++ rest) g k = Some x.
Proof.
  induction c as [|a c IH]; intros Hmin Hk.
  - simpl. destruct rest; cbn [CodeBlock.lazy_any]; now rewrite Hk.
  - cbn [app CodeBlock.lazy_any].
    pose proof (Hmin [] (a :: c) eq_refl) as Hhere. cbn [app] in Hhere.
    rewrite Hhere by discriminate. apply IH; auto.
    intros c1 c2 -> Hne. now apply (Hmin (a :: c1)).
Qed.

(** The closing fence as a list. *)
Lemma closing_list :
  list_ascii_of_string closing = CodeBlock.newline :: CodeBlock.fence.
Proof. reflexivity. Qed.

(** After the tag: a line break, the shortest text that a closing fence
    follows, and that fence. *)
Lemma body_pattern_match s g rest :
  CodeBlock.match_at body_pattern s = Some (g, rest) ->
  exists c,
    s = CodeBlock.newline :: c ++ (CodeBlock.newline :: CodeBlock.fence)
          ++ rest /\
    g = [(1, c)] /\
    forall c1 c2, c = c1 ++ c2 -> c2 <> [] ->
      strip_prefix (CodeBlock.newline :: CodeBlock.fence)
                   (c2 ++ (CodeBlock.newline :: CodeBlock.fence) ++ rest)
      = None.
Proof.
  unfold CodeBlock.match_at, body_pattern. cbn [CodeBlock.rmatch].
  destruct (strip_prefix [CodeBlock.newline] s) as [s1|] eqn:E1;
    [|discriminate].
  apply strip_prefix_Some in E1. subst s. intros H.
  apply lazy_any_spec in H. destruct H as (c & r & -> & Hk & Hmin).
  destruct (strip_prefix (CodeBlock.newline :: CodeBlock.fence) r)
    as [r'|] eqn:E2; [|discriminate].
  apply strip_prefix_Some in E2. subst r.
  rewrite firstn_consumed in Hk. inversion Hk; subst.
  exists c. split; [reflexivity|]. split; [reflexivity|].
  intros c1 c2 Hc Hne. specialize (Hmin c1 c2 Hc Hne).
  destruct (strip_prefix _ (c2 ++ _)); [discriminate|reflexivity].
Qed.

Lemma body_pattern_found c rest :
  (forall c1 c2, c = c1 ++ c2 -> c2 <> [] ->
     strip_prefix (CodeBlock.newline :: CodeBlock.fence)
                  (c2 ++ (CodeBlock.newline :: CodeBlock.fence) ++ rest)
     = None) ->
  CodeBlock.match_at body_pattern
    (CodeBlock.newline :: c ++ (CodeBlock.newline :: CodeBlock.fence) ++ rest)
  = Some ([(1, c)], rest).
Proof.
  intros Hmin. unfold CodeBlock.match_at, body_pattern.
  cbn [CodeBlock.rmatch].
  change (CodeBlock.newline ::
            c ++ (CodeBlock.newline :: CodeBlock.fence) ++ rest)
    with ([CodeBlock.newline] ++
            (c ++ (CodeBlock.newline :: CodeBlock.fence) ++ rest)).
  rewrite strip_prefix_app.
  apply lazy_any_first.
  - intros c1 c2 Hc Hne. cbv beta. now rewrite (Hmin c1 c2 Hc Hne).
  - rewrite strip_prefix_app. now rewrite firstn_consumed.
Qed.

Lemma code_pattern_body s :
  CodeBlock.match_at CodeBlock.CODE_PATTERN s
  = match strip_prefix CodeBlock.fence s with
    | Some s1 =>
        match
          match strip_prefix (list_ascii_of_string "java") s1 with
          | Some s2 => CodeBlock.match_at body_pattern s2
          | None => None
          end
        with
        | Some x => Some x
        | None => CodeBlock.match_at body_pattern s1
        end
    | None => None
    end.
Proof. reflexivity. Qed.

Lemma code_pattern_match s g rest :
  CodeBlock.match_at CodeBlock.CODE_PATTERN s = Some (g, rest) ->
  exists lang c,
    tag_ok lang /\
    s = CodeBlock.fence ++ lang ++ CodeBlock.newline :: c ++
          (CodeBlock.newline :: CodeBlock.fence) ++ rest /\
    g = [(1, c)] /\
    forall c1 c2, c = c1 ++ c2 -> c2 <> [] ->
      strip_prefix (CodeBlock.newline :: CodeBlock.fence)
                   (c2 ++ (CodeBlock.newline :: CodeBlock.fence) ++ rest)
      = None.
Proof.
  rewrite code_pattern_body.
  destruct (strip_prefix CodeBlock.fence s) as [s1|] eqn:E1; [|discriminate].
  apply strip_prefix_Some in E1. subst s.
  destruct (strip_prefix (list_ascii_of_string "java") s1) as [s2|] eqn:E2.
  - apply strip_prefix_Some in E2. subst s1.
    destruct (CodeBlock.match_at body_pattern s2) as [x|] eqn:E3.
    + intros [= ->]. apply body_pattern_match in E3.
      destruct E3 as (c & -> & -> & Hmin).
      exists (list_ascii_of_string "java"), c.
      split; [now right|]. repeat split; auto.
    + intros H. apply body_pattern_match in H.
      destruct H as (c & Hs & -> & Hmin).
      exists [], c. split; [now left|]. rewrite Hs. repeat split; auto.
  - intros H. apply body_pattern_match in H.
    destruct H as (c & -> & -> & Hmin).
    exists [], c. split; [now left|]. repeat split; auto.
Qed.

Lemma search_from_Some r : forall s pos m,
  CodeBlock.search_from r pos s = Some m ->
  exists pre suf found,
    s = pre ++ suf /\ CodeBlock.match_at r suf = Some found /\
    m = CodeBlock.mk_match r (pos + length pre) suf found.
Proof.
  induction s as [|a s IH]; cbn [CodeBlock.search_from]; intros pos m H.
  - destruct (CodeBlock.match_at r []) as [found|] eqn:E; [|discriminate].
    inversion H; subst. exists [], [], found. simpl.
    now rewrite Nat.add_0_r.
  - destruct (CodeBlock.match_at r (a :: s)) as [found|] eqn:E.
    + inversion H; subst. exists [], (a :: s), found. simpl.
      now rewrite Nat.add_0_r.
    + destruct (IH _ _ H) as (pre & suf & found & -> & Hm & ->).
      exists (a :: pre), suf, found. simpl.
      now rewrite Nat.add_succ_r.
Qed.

Lemma search_from_None r : forall s pos,
  (forall pre suf, s = pre ++ suf -> CodeBlock.match_at r suf = None) ->
  CodeBlock.search_from r pos s = None.
Proof.
  induction s as [|a s IH]; cbn [CodeBlock.search_from]; intros pos H.
  - now rewrite (H [] [] eq_refl).
  - rewrite (H [] (a :: s) eq_refl). apply IH.
    intros pre suf ->. now apply (H (a :: pre)).
Qed.

Lemma search_from_first r s found : forall pre pos,
  (forall p1 p2, pre = p1 ++ p2 -> p2 <> [] ->
                 CodeBlock.match_at r (p2 ++ s) = None) ->
  CodeBlock.match_at r s = Some found ->
  CodeBlock.search_from r pos (pre ++ s)
  = Some (CodeBlock.mk_match r (pos + length pre) s found).
Proof.
  induction pre as [|a pre IH]; intros pos Hnone Hm.
  - simpl. rewrite Nat.add_0_r.
    destruct s; cbn [CodeBlock.search_from]; now rewrite Hm.
  - pose proof (Hnone [] (a :: pre) eq_refl) as Hhere. cbn [app] in Hhere.
    cbn [app CodeBlock.search_from]. rewrite Hhere by discriminate.
    rewrite IH; auto.
    + cbn [length]. now rewrite Nat.add_succ_r.
    + intros p1 p2 -> Hne. now apply (Hnone (a :: p1)).
Qed.

Lemma search_from_None_inv r suf : forall pre pos,
  CodeBlock.search_from r pos (pre ++ suf) = None ->
  CodeBlock.match_at r suf = None.
Proof.
  induction pre as [|a pre IH]; intros pos H.
  - simpl in H. destruct suf; cbn [CodeBlock.search_from] in H;
      destruct (CodeBlock.match_at r _); congruence.
  - cbn [app CodeBlock.search_from] in H.
    destruct (CodeBlock.match_at r (a :: pre ++ suf)); [discriminate|].
    now apply (IH (S pos)).
Qed.

(** What [extract_code] returns when the pattern matches at [suf]. *)
Lemma group_code_match pos suf c rest :
  group (CodeBlock.mk_match CodeBlock.CODE_PATTERN pos suf ([(1, c)], rest)) 1
  = Ok (Some (string_of_list_ascii c)).
Proof. reflexivity. Qed.

(** The code-block step, in full: no match and the text as it is, or a
    match after [pre] with the text [c] in group 1. *)
Lemma extract_code_cases code :
  (CodeBlock.extract_code code = Ok (Some code) /\
   forall pre suf, list_ascii_of_string code = pre ++ suf ->
                   CodeBlock.match_at CodeBlock.CODE_PATTERN suf = None) \/
  (exists pre lang c rest,
     tag_ok lang /\
     list_ascii_of_string code
     = pre ++ CodeBlock.fence ++ lang ++ CodeBlock.newline :: c ++
         (CodeBlock.newline :: CodeBlock.fence) ++ rest /\
     (forall c1 c2, c = c1 ++ c2 -> c2 <> [] ->
        strip_prefix (CodeBlock.newline :: CodeBlock.fence)
                     (c2 ++ (CodeBlock.newline :: CodeBlock.fence) ++ rest)
        = None) /\
     CodeBlock.extract_code code = Ok (Some (string_of_list_ascii c))).
Proof.
  unfold CodeBlock.extract_code, CodeBlock.search.
  destruct (CodeBlock.search_from CodeBlock.CODE_PATTERN 0
              (list_ascii_of_string code)) as [m|] eqn:E.
  - right. apply search_from_Some in E.
    destruct E as (pre & suf & [g rest] & Hs & Hm & ->).
    apply code_pattern_match in Hm.
    destruct Hm as (lang & c & Hlang & -> & -> & Hmin).
    exists pre, lang, c, rest. repeat split; auto.
  - left. split; [reflexivity|]. intros pre suf Hs.
    rewrite Hs in E. now apply (search_from_None_inv _ _ _ _ E).
Qed.

Lemma code_block_text pre lang c rest :
  string_of_list_ascii
    (pre ++ CodeBlock.fence ++ list_ascii_of_string lang ++
       CodeBlock.newline :: c ++ (CodeBlock.newline :: CodeBlock.fence) ++ rest)
  = (string_of_list_ascii pre ++ "```" ++ lang ++ nl ++
       string_of_list_ascii c ++ closing ++ string_of_list_ascii rest)%string.
Proof.
  rewrite string_of_list_ascii_app. f_equal.
  change (CodeBlock.fence ++ ?x)
    with (list_ascii_of_string "```" ++ x).
  rewrite string_of_list_ascii_app, string_of_list_ascii_of_string. f_equal.
  rewrite string_of_list_ascii_app, string_of_list_ascii_of_string. f_equal.
  cbn [string_of_list_ascii]. unfold nl. cbn [String.append]. f_equal.
  rewrite string_of_list_ascii_app. f_equal.
Qed.

(** X10.  The code-block step never raises and never leaves [None]: its
    result is the reply as it is, or the text between the first line break
    after an opening fence, tagged [java] or untagged, and a closing fence
    of the reply. *)
Theorem extract_code_block (code : string) :
  exists result,
    CodeBlock.extract_code code = Ok (Some result) /\
    (result = code \/
     exists pre lang post,
       (lang = "" \/ lang = "java") /\
       code = (pre ++ "```" ++ lang ++ nl ++ result ++ closing ++ post)%string).
Proof.
  destruct (extract_code_cases code)
    as [[H _]|(pre & lang & c & rest & Hlang & Hs & _ & H)].
  - exists code. auto.
  - exists (string_of_list_ascii c). split; [exact H|]. right.
    exists (string_of_list_ascii pre), (string_of_list_ascii lang),
      (string_of_list_ascii rest).
    split.
    + destruct Hlang as [->| ->]; [now left|now right].
    + apply text_of_list in Hs. rewrite Hs.
      rewrite <- (list_ascii_of_string_of_list_ascii lang) at 1.
      apply code_block_text.
Qed.

(** X11.  When a block is found the result ends at the first closing
    fence after the opening line: it holds no line break followed by three
    backquotes.  (A reply whose code holds a fenced block of its own is cut
    there.) *)
Theorem extract_code_ends_at_first_closing (code result : string) :
  CodeBlock.extract_code code = Ok (Some result) ->
  result = code \/ ~ contains closing result.
Proof.
  intros H.
  destruct (extract_code_cases code)
    as [[H0 _]|(pre & lang & c & rest & _ & _ & Hmin & H1)].
  - left. congruence.
  - right. rewrite H1 in H. injection H as <-.
    intros Hc. apply contains_list in Hc. destruct Hc as (x & y & E).
    rewrite list_ascii_of_string_of_list_ascii, closing_list in E.
    assert (Hne : (CodeBlock.newline :: CodeBlock.fence) ++ y <> [])
      by discriminate.
    pose proof (Hmin x _ E Hne) as Hnone.
    rewrite <- app_assoc, strip_prefix_app in Hnone. discriminate.
Qed.

Lemma extract_code_ends_at_first_closing_witness :
  CodeBlock.extract_code
    ("```java" ++ nl ++ "a" ++ closing ++ nl ++ "b" ++ closing)
  = Ok (Some "a") /\
  ("a" = ("```java" ++ nl ++ "a" ++ closing ++ nl ++ "b" ++ closing)%string \/
   ~ contains closing "a").
Proof.
  split; [reflexivity|].
  apply (extract_code_ends_at_first_closing
           ("```java" ++ nl ++ "a" ++ closing ++ nl ++ "b" ++ closing) "a").
  reflexivity.
Defined.

Lemma code_pattern_fence s found :
  CodeBlock.match_at CodeBlock.CODE_PATTERN s = Some found ->
  exists rest, s = CodeBlock.fence ++ rest.
Proof.
  destruct found as [g rest]. intros H. apply code_pattern_match in H.
  destruct H as (lang & c & _ & -> & _). eauto.
Qed.

(** X12.  A reply without three backquotes in a row is left as it is. *)
Theorem extract_code_without_fence (code : string) :
  ~ contains "```" code ->
  CodeBlock.extract_code code = Ok (Some code).
Proof.
  intros Hno.
  destruct (extract_code_cases code)
    as [[H _]|(pre & lang & c & rest & _ & Hs & _ & _)]; [exact H|].
  exfalso. apply Hno. apply contains_list. eauto.
Qed.

Lemma not_contains_by_scan needle text :
  finditer (lit needle) text = [] -> ~ contains needle text.
Proof.
  intros Hnil Hc. apply contains_list in Hc. destruct Hc as (x & y & E).
  assert (Hn : finditer (lit needle) text <> []).
  { unfold finditer. rewrite E.
    eapply finditer_from_complete. apply match_at_lit. }
  contradiction.
Qed.

Lemma extract_code_without_fence_witness :
  ~ contains "```" "class A { } // `ok`" /\
  CodeBlock.extract_code "class A { } // `ok`"
  = Ok (Some "class A { } // `ok`").
Proof.
  split; [apply not_contains_by_scan; reflexivity|].
  apply (extract_code_without_fence "class A { } // `ok`").
  apply not_contains_by_scan. reflexivity.
Defined.

(** A closing fence cannot begin inside code that holds none. *)
Lemma closing_not_early code rest c1 c2 :
  ~ contains closing code ->
  list_ascii_of_string code = c1 ++ c2 -> c2 <> [] ->
  strip_prefix (CodeBlock.newline :: CodeBlock.fence)
               (c2 ++ (CodeBlock.newline :: CodeBlock.fence) ++ rest)
  = None.
Proof.
  intros Hno Hc Hne.
  destruct (strip_prefix _ _) as [r|] eqn:E; [exfalso|reflexivity].
  apply strip_prefix_Some in E.
  destruct c2 as [|a [|b [|d [|e c2]]]]; [congruence| | | |];
    try (cbv in E; discriminate E).
  apply Hno. apply contains_list. exists c1, c2.
  rewrite Hc, closing_list.
  cbv in E. injection E as -> -> -> -> _. reflexivity.
Qed.

(** An opening fence that starts in front of the real one, in text that
    holds no three backquotes in a row, is followed by a backquote and not
    by a tag and a line break. *)
Lemma fence_not_early pre p1 p2 lang rest :
  ~ contains "```" pre ->
  list_ascii_of_string pre = p1 ++ p2 -> p2 <> [] ->
  CodeBlock.match_at CodeBlock.CODE_PATTERN
    (p2 ++ CodeBlock.fence ++ lang ++ CodeBlock.newline :: rest)
  = None.
Proof.
  intros Hno Hp Hne.
  destruct (CodeBlock.match_at _ _) as [[g r]|] eqn:E; [exfalso|reflexivity].
  apply code_pattern_match in E.
  destruct E as (lang' & c & Hlang & E & _).
  destruct p2 as [|a [|b [|d p2]]]; [congruence| | |].
  - destruct Hlang as [->| ->]; cbv in E; discriminate E.
  - destruct Hlang as [->| ->]; cbv in E; discriminate E.
  - apply Hno. apply contains_list. exists p1, p2. rewrite Hp.
    unfold CodeBlock.fence in E. cbn [list_ascii_of_string app] in E.
    injection E as -> -> -> _. reflexivity.
Qed.

(** X13.  Round trip of the code-block step: a reply made of any text
    without three backquotes in a row, an opening fence tagged [java] or
    untagged, a line break, the code, a closing fence and any text after it
    gives the code back, for every code that holds no line break followed
    by three backquotes. *)
Theorem extract_code_roundtrip (pre lang code post : string) :
  lang = "" \/ lang = "java" ->
  ~ contains "```" pre -> ~ contains closing code ->
  CodeBlock.extract_code
    (pre ++ "```" ++ lang ++ nl ++ code ++ closing ++ post)
  = Ok (Some code).
Proof.
  intros Hlang Hpre Hcode.
  set (s := CodeBlock.fence ++ list_ascii_of_string lang ++
            CodeBlock.newline :: list_ascii_of_string code ++
            (CodeBlock.newline :: CodeBlock.fence) ++
            list_ascii_of_string post).
  assert (Htext : list_ascii_of_string
                    (pre ++ "```" ++ lang ++ nl ++ code ++ closing ++ post)
                  = list_ascii_of_string pre ++ s).
  { unfold s. rewrite !list_ascii_of_string_app. reflexivity. }
  assert (Hm : CodeBlock.match_at CodeBlock.CODE_PATTERN s
               = Some ([(1, list_ascii_of_string code)],
                       list_ascii_of_string post)).
  { unfold s. rewrite code_pattern_body, strip_prefix_app.
    assert (Hbody :
      CodeBlock.match_at body_pattern
        (CodeBlock.newline :: list_ascii_of_string code ++
           (CodeBlock.newline :: CodeBlock.fence) ++ list_ascii_of_string post)
      = Some ([(1, list_ascii_of_string code)], list_ascii_of_string post)).
    { apply body_pattern_found. intros c1 c2 Hc Hne.
      now apply (closing_not_early code _ c1 c2). }
    destruct Hlang as [->| ->].
    - cbn [list_ascii_of_string app]. exact Hbody.
    - rewrite strip_prefix_app. now rewrite Hbody. }
  unfold CodeBlock.extract_code, CodeBlock.search. rewrite Htext.
  rewrite (search_from_first CodeBlock.CODE_PATTERN s
             ([(1, list_ascii_of_string code)], list_ascii_of_string post)
             (list_ascii_of_string pre) 0);
    [|intros p1 p2 Hp Hne; now apply (fence_not_early pre p1 p2)|exact Hm].
  rewrite group_code_match. now rewrite string_of_list_ascii_of_string.
Qed.

Lemma extract_code_roundtrip_witness :
  ("java" = "" \/ "java" = "java") /\
  ~ contains "```" "Here you go:" /\
  ~ contains closing "class A { String s = ```; }" /\
  CodeBlock.extract_code
    ("Here you go:" ++ "```" ++ "java" ++ nl ++
     "class A { String s = ```; }" ++ closing ++ " Enjoy!")
  = Ok (Some "class A { String s = ```; }").
Proof.
  split; [now right|].
  split; [apply not_contains_by_scan; reflexivity|].
  split; [apply not_contains_by_scan; reflexivity|].
  apply (extract_code_roundtrip "Here you go:" "java"
           "class A { String s = ```; }" " Enjoy!");
    [now right|apply not_contains_by_scan; reflexivity
    |apply not_contains_by_scan; reflexivity].
Defined.

(** ** A fence with another tag *)

Lemma no_char_count (c : ascii) (s : string) :
  ~ contains (String c "") s ->
  count_occ ascii_dec (list_ascii_of_string s) c = 0.
Proof.
  intros Hno. apply count_occ_not_In. intros Hin.
  apply in_split in Hin. destruct Hin as (x & y & E).
  apply Hno. apply contains_list. exists x, y. exact E.
Qed.

Lemma no_char_not_in (c : ascii) (s : string) :
  ~ contains (String c "") s -> ~ In c (list_ascii_of_string s).
Proof.
  intros Hno Hin. apply in_split in Hin. destruct Hin as (x & y & E).
  apply Hno. apply contains_list. exists x, y. exact E.
Qed.

Lemma fence_count : count_occ ascii_dec CodeBlock.fence backquote = 3.
Proof. reflexivity. Qed.

Lemma closing_count :
  count_occ ascii_dec (CodeBlock.newline :: CodeBlock.fence) backquote = 3.
Proof. reflexivity. Qed.

(** A match of the pattern holds two fences. *)
Lemma code_pattern_backquotes s found :
  CodeBlock.match_at CodeBlock.CODE_PATTERN s = Some found ->
  6 <= count_occ ascii_dec s backquote.
Proof.
  destruct found as [g rest]. intros H. apply code_pattern_match in H.
  destruct H as (lang & c & _ & -> & _).
  rewrite !count_occ_app. cbn [count_occ].
  destruct (ascii_dec CodeBlock.newline backquote) as [E|_];
    [discriminate E|].
  rewrite !count_occ_app, fence_count, closing_count. lia.
Qed.

(** X14.  A fence with any other tag is not recognised: a reply that is
    one block whose tag is neither empty nor [java] (say [Java] or
    [kotlin]), without backquotes inside, is left as it is, fences and
    all. *)
Theorem extract_code_other_tag (tag code post : string) :
  tag <> "" -> tag <> "java" ->
  ~ contains nl tag -> ~ contains "`" tag ->
  ~ contains "`" code -> ~ contains "`" post ->
  CodeBlock.extract_code ("```" ++ tag ++ nl ++ code ++ closing ++ post)
  = Ok (Some ("```" ++ tag ++ nl ++ code ++ closing ++ post)%string).
Proof.
  intros Hne Hjava Hnl Htag Hcode Hpost.
  set (text := ("```" ++ tag ++ nl ++ code ++ closing ++ post)%string).
  destruct (extract_code_cases text)
    as [[H _]|(pre & lang & c & rest & Hlang & Hs & Hmin & _)]; [exact H|].
  exfalso.
  assert (Htext : list_ascii_of_string text
                  = CodeBlock.fence ++ list_ascii_of_string tag ++
                      CodeBlock.newline :: list_ascii_of_string code ++
                      (CodeBlock.newline :: CodeBlock.fence) ++
                      list_ascii_of_string post).
  { unfold text. rewrite !list_ascii_of_string_app. reflexivity. }
  assert (Hcount : count_occ ascii_dec (list_ascii_of_string text) backquote
                   = 6).
  { rewrite Htext, !count_occ_app. cbn [count_occ].
    destruct (ascii_dec CodeBlock.newline backquote) as [E|_];
      [discriminate E|].
    rewrite !count_occ_app, fence_count, closing_count. unfold backquote.
    rewrite (no_char_count _ _ Htag), (no_char_count _ _ Hcode),
      (no_char_count _ _ Hpost). reflexivity. }
  assert (Hsuf : 6 <= count_occ ascii_dec
                        (CodeBlock.fence ++ lang ++ CodeBlock.newline :: c ++
                           (CodeBlock.newline :: CodeBlock.fence) ++ rest)
                        backquote).
  { rewrite !count_occ_app. cbn [count_occ].
    destruct (ascii_dec CodeBlock.newline backquote) as [E|_];
      [discriminate E|].
    rewrite !count_occ_app, fence_count, closing_count. lia. }
  assert (Hpre : pre = []).
  { destruct pre as [|a pre]; [reflexivity|exfalso].
    rewrite Hs, count_occ_app in Hcount. rewrite Htext in Hs.
    unfold CodeBlock.fence at 1 in Hs. cbn [list_ascii_of_string app] in Hs.
    injection Hs as <- _.
    cbn [count_occ] in Hcount.
    destruct (ascii_dec _ backquote) as [_|N];
      [lia|apply N; reflexivity]. }
  subst pre. cbn [app] in Hs. rewrite Htext in Hs.
  apply app_inv_head in Hs.
  pose proof (no_char_not_in _ _ Hnl) as Hnl'.
  destruct Hlang as [->| ->].
  - destruct tag as [|t tag]; [congruence|].
    cbn [list_ascii_of_string app] in Hs. injection Hs as -> _.
    apply Hnl'. now left.
  - destruct tag as [|t1 [|t2 [|t3 [|t4 [|t5 tag]]]]]; [congruence|..];
      cbn [list_ascii_of_string app] in Hs;
      try (injection Hs; intros; subst; discriminate).
    + injection Hs as -> -> -> -> _. congruence.
    + injection Hs as -> -> -> -> -> _.
      apply Hnl'. simpl. tauto.
Qed.

Lemma extract_code_other_tag_witness :
  "Java" <> "" /\ "Java" <> "java" /\
  ~ contains nl "Java" /\ ~ contains "`" "Java" /\
  ~ contains "`" "class A {}" /\ ~ contains "`" "" /\
  CodeBlock.extract_code ("```" ++ "Java" ++ nl ++ "class A {}" ++ closing ++ "")
  = Ok (Some ("```" ++ "Java" ++ nl ++ "class A {}" ++ closing ++ "")%string).
Proof.
  split; [discriminate|]. split; [discriminate|].
  split; [apply not_contains_by_scan; reflexivity|].
  split; [apply not_contains_by_scan; reflexivity|].
  split; [apply not_contains_by_scan; reflexivity|].
  split; [apply not_contains_by_scan; reflexivity|].
  apply (extract_code_other_tag "Java" "class A {}" "");
    try discriminate; apply not_contains_by_scan; reflexivity.
Defined.

(** * Beyond the claims: [/implement] inside a longer text *)

Lemma implement_match_keyword s found :
  match_at implement_pattern s = Some found ->
  exists rest, s = list_ascii_of_string "/implement" ++ rest.
Proof.
  destruct found as [g rest]. intros Hm.
  apply match_at_sound in Hm. destruct Hm as (w & -> & Hw).
  apply implement_pattern_inv in Hw.
  destruct Hw as (ws & _ & _ & [[-> _]|(body & -> & _)]);
    rewrite <- !app_assoc; eauto.
Qed.

(** The first match of the implement pattern, when its keyword does not
    occur before. *)
Lemma finditer_implement_first pre tail found :
  ~ contains "/implement" pre ->
  match_at implement_pattern (list_ascii_of_string "/implement" ++ tail)
  = Some found ->
  exists rest,
    finditer_from implement_pattern 0 0
      (list_ascii_of_string pre ++ list_ascii_of_string "/implement" ++ tail)
    = mk_match implement_pattern (length (list_ascii_of_string pre))
        (list_ascii_of_string "/implement" ++ tail) found :: rest.
Proof.
  intros Hpre Hm.
  apply (finditer_from_first implement_pattern _ found
           (list_ascii_of_string pre) 0); [|exact Hm|discriminate].
  intros p1 p2 Hp Hp2.
  destruct (match_at _ (p2 ++ _)) as [found'|] eqn:E; [exfalso|reflexivity].
  destruct (implement_match_keyword _ _ E) as (r & Hr).
  cbn [list_ascii_of_string] in Hr.
  refine (keyword_not_astride (list_ascii_of_string "implement")
            (list_ascii_of_string pre) p1 p2 tail r _ _ Hp Hp2 Hr).
  - simpl. intros H.
    repeat (destruct H as [H|H]; [discriminate|]). contradiction.
  - intros x y Hxy. apply Hpre. apply contains_list. eauto.
Qed.

Lemma detect_commands_implement_at pre tail found c :
  ~ contains "/implement" pre ->
  match_at implement_pattern (list_ascii_of_string "/implement" ++ tail)
  = Some found ->
  (forall pos s,
      match_command "implement" (mk_match implement_pattern pos s found)
      = Ok c) ->
  forall text,
    list_ascii_of_string text
    = list_ascii_of_string pre ++ list_ascii_of_string "/implement" ++ tail ->
    ~ contains "/help" text ->
    short_digit_runs (list_ascii_of_string text) ->
    exists cmds, detect_commands text = Ok cmds /\ In c cmds.
Proof.
  intros Hpre Hm Hc text Htext Hh Hs.
  destruct (finditer_implement_first pre tail found Hpre Hm) as (rest & Hf).
  destruct (detect_commands_without_help text (finditer_help_none _ Hh) Hs)
    as (cmds & Hd).
  exists cmds. split; [exact Hd|].
  apply (detect_commands_In _ _ c Hd).
  eexists "implement", implement_pattern, _.
  split; [simpl; tauto|].
  split; [unfold finditer; rewrite Htext, Hf; now left|apply Hc].
Qed.

(** X15.  After [/implement] and white space the three letters [all]
    select everything whatever follows them, a longer word included
    ([/implement allow]): if the keyword does not occur earlier and the text
    has neither [/help] nor a run of more than 4300 digits, the result
    holds the select-all command. *)
Theorem implement_all_prefix (pre ws post : string) :
  ~ contains "/implement" pre ->
  ws <> "" -> forallb Py.isspace (list_ascii_of_string ws) = true ->
  ~ contains "/help" (pre ++ "/implement" ++ ws ++ "all" ++ post) ->
  short_digit_runs
    (list_ascii_of_string (pre ++ "/implement" ++ ws ++ "all" ++ post)) ->
  exists cmds,
    detect_commands (pre ++ "/implement" ++ ws ++ "all" ++ post) = Ok cmds /\
    In ("implement", All) cmds.
Proof.
  intros Hpre Hws Hsp Hh Hs.
  apply (detect_commands_implement_at pre
           (list_ascii_of_string ws ++ list_ascii_of_string "all" ++
              list_ascii_of_string post)
           ([], list_ascii_of_string post)); auto.
  - apply match_at_implement_all; [destruct ws; simpl; congruence|exact Hsp].
  - now rewrite !list_ascii_of_string_app.
Qed.

Lemma implement_all_prefix_witness :
  ~ contains "/implement" "ok, " /\
  " " <> "" /\ forallb Py.isspace (list_ascii_of_string " ") = true /\
  short_digit_runs
    (list_ascii_of_string ("ok, " ++ "/implement" ++ " " ++ "all" ++ "ow me")) /\
  exists cmds,
    detect_commands ("ok, " ++ "/implement" ++ " " ++ "all" ++ "ow me")
    = Ok cmds /\
    In ("implement", All) cmds.
Proof.
  split; [apply not_contains_by_scan; reflexivity|].
  split; [discriminate|]. split; [reflexivity|].
  split; [apply short_text_short_runs; reflexivity|].
  apply (implement_all_prefix "ok, " " " "ow me");
    [apply not_contains_by_scan; reflexivity|discriminate|reflexivity
    |apply not_contains_help; reflexivity
    |apply short_text_short_runs; reflexivity].
Defined.

(** X16.  An index list is read back from the middle of a text: after
    [/implement] and white space, positive integers in decimal separated by
    commas, with or without white space around each of them, and then any
    text that does not start with a digit, a comma or white space, give
    exactly those integers, in order (if the keyword does not occur earlier
    and the text has neither [/help] nor a run of more than 4300 digits). *)
Theorem implement_indices_in_text (pre ws post : string)
        (e : index_entry) (es : list index_entry) :
  ~ contains "/implement" pre ->
  ws <> "" -> forallb Py.isspace (list_ascii_of_string ws) = true ->
  forallb valid_entry (e :: es) = true ->
  stops cls_index (list_ascii_of_string post) ->
  ~ contains "/help"
      (pre ++ "/implement" ++ ws ++ join_entries e es ++ post) ->
  short_digit_runs
    (list_ascii_of_string
       (pre ++ "/implement" ++ ws ++ join_entries e es ++ post)) ->
  exists cmds,
    detect_commands (pre ++ "/implement" ++ ws ++ join_entries e es ++ post)
    = Ok cmds /\
    In ("implement", Indices (entry_values (e :: es))) cmds.
Proof.
  intros Hpre Hws Hsp Hv Hpost Hh Hs.
  assert (Ht : list_ascii_of_string
                 (pre ++ "/implement" ++ ws ++ join_entries e es ++ post)
               = list_ascii_of_string pre ++
                 list_ascii_of_string "/implement" ++
                 list_ascii_of_string ws ++
                 list_ascii_of_string (join_entries e es) ++
                 list_ascii_of_string post).
  { now rewrite !list_ascii_of_string_app. }
  destruct (implement_entries (list_ascii_of_string ws) e es
              (list_ascii_of_string post))
    as (found & Hm & Hc); auto.
  - destruct ws; simpl; congruence.
  - eapply short_digit_runs_infix; [exact Hs|].
    exists (list_ascii_of_string pre ++ list_ascii_of_string "/implement" ++
            list_ascii_of_string ws), (list_ascii_of_string post).
    rewrite Ht. now rewrite <- !app_assoc.
  - apply (detect_commands_implement_at pre
             (list_ascii_of_string ws ++
                list_ascii_of_string (join_entries e es) ++
                list_ascii_of_string post)
             (found, list_ascii_of_string post)); auto.
Qed.

Lemma implement_indices_in_text_witness :
  ~ contains "/implement" "Sure: " /\
  " " <> "" /\ forallb Py.isspace (list_ascii_of_string " ") = true /\
  forallb valid_entry [Entry "" 2 " "; Entry "" 10 " "] = true /\
  ("Sure: " ++ "/implement" ++ " " ++
   join_entries (Entry "" 2 " ") [Entry "" 10 " "] ++ "and thanks")%string
  = "Sure: /implement 2 ,10 and thanks" /\
  stops cls_index (list_ascii_of_string "and thanks") /\
  short_digit_runs (list_ascii_of_string "Sure: /implement 2 ,10 and thanks") /\
  exists cmds,
    detect_commands "Sure: /implement 2 ,10 and thanks" = Ok cmds /\
    In ("implement", Indices [2; 10]%Z) cmds.
Proof.
  split; [apply not_contains_by_scan; reflexivity|].
  split; [discriminate|]. split; [reflexivity|]. split; [reflexivity|].
  split; [reflexivity|]. split; [reflexivity|].
  split; [apply short_text_short_runs; reflexivity|].
  apply (implement_indices_in_text "Sure: " " " "and thanks"
           (Entry "" 2 " ") [Entry "" 10 " "]);
    [apply not_contains_by_scan; reflexivity|discriminate|reflexivity
    |reflexivity|reflexivity|apply not_contains_help; reflexivity
    |apply short_text_short_runs; reflexivity].
Defined.
